(** * TreatOrHell: the Response Store and the persona chat handlers

    A shallow embedding of [api/index.py].  The handlers are written as
    programs over the primitive operations the Python code performs
    (file-system calls and the chat-completion call); a world gives each
    primitive its meaning.  The same programs are run one request at a
    time ([run]) and interleaved system call by system call
    ([interleave]). *)

From Stdlib Require Import Ascii.
From stdpp Require Import gmap strings list.

(** ** Text *)

(** Python [str] values are modelled by their UTF-8 encoding, so that
    [open(..., encoding="utf-8")] stores a text as it is; bytes read from
    a file are a text again only when they are such an encoding
    ([Text.utf8_valid]). *)

Definition LF : string := String "010"%char "".
Definition CR : string := String "013"%char "".
Definition DQUOTE : string := String "034"%char "".

Module Text.

(** [s.startswith(p)] *)
Fixpoint startswith (p s : string) : bool :=
  match p, s with
  | "", _ => true
  | String a p', String b s' => if Ascii.eqb a b then startswith p' s' else false
  | String _ _, "" => false
  end.

(** [p in s] *)
Fixpoint contains (p s : string) : bool :=
  startswith p s ||
  match s with
  | "" => false
  | String _ s' => contains p s'
  end.

(** [s[n:]] *)
Fixpoint drop (n : nat) (s : string) : string :=
  match n, s with
  | O, _ => s
  | S n', String _ s' => drop n' s'
  | S _, "" => ""
  end.

(** [s[:n]] *)
Fixpoint take (n : nat) (s : string) : string :=
  match n, s with
  | O, _ => ""
  | S n', String c s' => String c (take n' s')
  | S _, "" => ""
  end.

(** [bool(s)]: a string is true when it is not empty. *)
Definition truthy (s : string) : bool :=
  match s with
  | "" => false
  | String _ _ => true
  end.

(** ["\r" in s] *)
Fixpoint has_cr (s : string) : bool :=
  match s with
  | "" => false
  | String c s' => Ascii.eqb c "013"%char || has_cr s'
  end.

(** The text occurs verbatim inside another one. *)
Definition Substring (p s : string) : Prop :=
  ∃ pre post, s = pre +:+ p +:+ post.

(** What a file opened with [open(path, "r")] makes of the line ends it
    has read: with the default [newline=None] Python reads in
    universal-newlines mode, where
    a carriage return followed by a line feed, and a carriage return alone,
    are each given to the caller as one line feed. *)
Fixpoint universal_newlines (s : string) : string :=
  match s with
  | "" => ""
  | String c s' =>
      if Ascii.eqb c "013"%char then
        match s' with
        | String c' s'' =>
            if Ascii.eqb c' "010"%char
            then String "010"%char (universal_newlines s'')
            else String "010"%char (universal_newlines s')
        | "" => String "010"%char ""
        end
      else String c (universal_newlines s')
  end.

(** The bytes that must follow the first byte [b] of a character encoded
    in UTF-8, each as the range it must lie in; [None] when no character
    starts with [b].  Encodings longer than needed, the surrogates and the
    code points above U+10FFFF are no characters. *)
Definition utf8_continuation (b : N) : option (list (N * N)) :=
  if (b <=? 127)%N then Some []
  else if (194 <=? b)%N && (b <=? 223)%N then Some [(128, 191)%N]
  else if (b =? 224)%N then Some [(160, 191)%N; (128, 191)%N]
  else if (b =? 237)%N then Some [(128, 159)%N; (128, 191)%N]
  else if (225 <=? b)%N && (b <=? 239)%N then Some [(128, 191)%N; (128, 191)%N]
  else if (b =? 240)%N then Some [(144, 191)%N; (128, 191)%N; (128, 191)%N]
  else if (241 <=? b)%N && (b <=? 243)%N then Some [(128, 191)%N; (128, 191)%N; (128, 191)%N]
  else if (b =? 244)%N then Some [(128, 143)%N; (128, 191)%N; (128, 191)%N]
  else None.

(** The bytes [s] are the end of a character that still awaits the bytes
    [pending], followed by whole characters. *)
Fixpoint utf8_from (pending : list (N * N)) (s : string) : bool :=
  match s with
  | "" => match pending with [] => true | _ => false end
  | String a s' =>
      match pending with
      | [] =>
          match utf8_continuation (N_of_ascii a) with
          | Some pending' => utf8_from pending' s'
          | None => false
          end
      | (lo, hi) :: pending' =>
          (lo <=? N_of_ascii a)%N && (N_of_ascii a <=? hi)%N && utf8_from pending' s'
      end
  end.

(** [bytes.decode("utf-8")] succeeds. *)
Definition utf8_valid (s : string) : bool := utf8_from [] s.

(** What [f.read()] hands back for the bytes it has read, when they are
    the encoding of a text; [None] stands for the [UnicodeDecodeError] it
    raises when they are not. *)
Definition decoded (bytes : string) : option string :=
  if utf8_valid bytes then Some (universal_newlines bytes) else None.

(** [str(Path(p).parent)] for the paths of this program: the text before
    the last slash, ["."] when there is no slash, ["/"] when the only
    slash is the first character. *)
Fixpoint before_last_slash (s : string) : option string :=
  match s with
  | "" => None
  | String c s' =>
      match before_last_slash s' with
      | Some d => Some (String c d)
      | None => if Ascii.eqb c "/"%char then Some "" else None
      end
  end.

Definition parent (p : string) : string :=
  match before_last_slash p with
  | None => "."
  | Some "" => "/"
  | Some d => d
  end.

End Text.

(** ** Data model *)

Inductive Role := system | user | assistant.

(** One entry of the [messages] list: [{"role": ..., "content": ...}]. *)
Record Message := { role : Role; content : string }.

(** [class ChatRequest(BaseModel): message: str] *)
Record ChatRequest := { message : string }.

(** [class QuestionAnswers(BaseModel)] *)
Record QuestionAnswers := { q1 : string; q2 : string; q3 : string; q4 : string }.

(** The client object [OpenAI(api_key=api_key)]. *)
Record OpenAI := { client_api_key : string }.

(** What [client.chat.completions.create] returns, as far as the handlers
    look at it: [response.choices[i].message.content], which may be [None]. *)
Record ChatCompletion := { choices : list (option string) }.

(** A Python exception raised by a library call; the handlers only ever
    look at [str(e)]. *)
Record PyException := { str : string }.

(** [HTTPException(status_code=..., detail=...)] *)
Record HTTPException := { status_code : nat; detail : string }.

(** The two kinds of successful answers: the confirmation page of
    [submit_questions] (its static markup is not modelled) and the
    [{"reply": ...}] object of the chat handlers. *)
Inductive Response :=
| HTMLResponse_saved
| reply_json (reply : option string).

Inductive PyResult (X : Type) :=
| Returned (x : X)
| Raised (e : PyException).
Arguments Returned {X} x.
Arguments Raised {X} e.

(** ** Primitive operations *)

(** [os.path.exists] answers [False] on every error; [Path.exists] answers
    [False] when the path is not there and lets other errors (no permission
    to search the directory, say) through as exceptions.  [f.read()] reads
    the file with as many [read()] calls as it takes to meet its end:
    [file_read_more p acc] is a [f.read()] under way, that has read the
    bytes [acc] so far. *)
Inductive Op :=
| path_exists (p : string)                (* os.path.exists(p) *)
| Path_exists (p : string)                (* Path(p).exists() *)
| path_mkdir (p : string)                 (* Path(p).mkdir(parents=True, exist_ok=True) *)
| open_w (p : string)                     (* open(p, "w", encoding="utf-8") *)
| file_write (p : string) (data : string) (* f.write(data), flushed when the with block closes f *)
| open_r (p : string)                     (* open(p, "r", encoding="utf-8") *)
| file_read (p : string)                  (* f.read() *)
| file_read_more (p : string) (acc : string)
| completions_create (c : OpenAI) (model : string) (messages : list Message).

Definition result_of (op : Op) : Type :=
  match op with
  | path_exists _ => bool
  | Path_exists _ => PyResult bool
  | path_mkdir _ | open_w _ | file_write _ _ | open_r _ => PyResult unit
  | file_read _ | file_read_more _ _ => PyResult string
  | completions_create _ _ _ => PyResult ChatCompletion
  end.

#[global] Instance Role_eq_dec : EqDecision Role.
Proof. solve_decision. Defined.
#[global] Instance Message_eq_dec : EqDecision Message.
Proof. solve_decision. Defined.
#[global] Instance OpenAI_eq_dec : EqDecision OpenAI.
Proof. solve_decision. Defined.
#[global] Instance Op_eq_dec : EqDecision Op.
Proof. solve_decision. Defined.

(** ** Programs *)

(** A program performs primitives one after the other, returns a value or
    raises an exception of type [E]. *)
Inductive Prog (E A : Type) : Type :=
| Ret (a : A)
| Raise (e : E)
| Do (op : Op) (k : result_of op → Prog E A).
Arguments Ret {E A} a.
Arguments Raise {E A} e.
Arguments Do {E A} op k.

Fixpoint bind {E A B} (m : Prog E A) (f : A → Prog E B) : Prog E B :=
  match m with
  | Ret a => f a
  | Raise e => Raise e
  | Do op k => Do op (λ r, bind (k r) f)
  end.

Notation "x <- m ; k" := (bind m (λ x, k))
  (at level 20, m at level 100, k at level 200, only parsing).

(** [try: body except Exception as e: handler(e)] *)
Fixpoint try_except {E A} (body : Prog PyException A)
    (handler : PyException → Prog E A) : Prog E A :=
  match body with
  | Ret a => Ret a
  | Raise e => handler e
  | Do op k => Do op (λ r, try_except (k r) handler)
  end.

(** A library call that may raise: its exception propagates. *)
Definition raising {X} (r : PyResult X) : Prog PyException X :=
  match r with
  | Returned x => Ret x
  | Raised e => Raise e
  end.

Definition exists_ {E} (p : string) : Prog E bool := Do (path_exists p) Ret.
Definition exists_method (p : string) : Prog PyException bool :=
  Do (Path_exists p) raising.
Definition mkdir (p : string) : Prog PyException unit :=
  Do (path_mkdir p) raising.
Definition open_for_writing (p : string) : Prog PyException unit :=
  Do (open_w p) raising.
Definition write (p data : string) : Prog PyException unit :=
  Do (file_write p data) raising.
Definition open_for_reading (p : string) : Prog PyException unit :=
  Do (open_r p) raising.
Definition read (p : string) : Prog PyException string :=
  Do (file_read p) raising.
Definition create (c : OpenAI) (model : string) (messages : list Message)
    : Prog PyException ChatCompletion :=
  Do (completions_create c model messages) raising.

(** ** The world the handlers run in *)

(** Directories and regular files are kept by the path the program spells.
    [io_error] is the part the program has no hand in: when it gives a
    text for a primitive, that primitive raises an [OSError] whose [str]
    is that text.  A write that fails may have put the beginning of its
    text into the file already: [short_write] is the number of bytes that
    got there.  [provider] is the remote
    completion service as seen through [client.chat.completions.create]. *)
Record World := {
  dirs : gset string;
  files : gmap string string;
  io_error : Op → option string;
  short_write : nat;
  provider : OpenAI → string → list Message → PyResult ChatCompletion
}.

Definition with_dirs (d : gset string) (w : World) : World :=
  {| dirs := d; files := files w; io_error := io_error w;
     short_write := short_write w; provider := provider w |}.

Definition with_files (f : gmap string string) (w : World) : World :=
  {| dirs := dirs w; files := f; io_error := io_error w;
     short_write := short_write w; provider := provider w |}.

(** The outcome of a primitive that may fail for a reason of the
    environment, and succeeds with [ok] otherwise. *)
Definition unless_io_error {X} (w : World) (op : Op) (ok : PyResult X * World)
    : PyResult X * World :=
  match io_error w op with
  | Some e => (Raised {| str := e |}, w)
  | None => ok
  end.

(** The text of a file; a file opened for writing starts at offset 0, so
    that [data] replaces the first [len(data)] bytes of what is there. *)
Definition file_text (w : World) (p : string) : string :=
  default "" (files w !! p).

Definition written_at_0 (data old : string) : string :=
  data +:+ Text.drop (String.length data) old.

(** A path exists when it is a directory or a file. *)
Definition path_present (w : World) (p : string) : bool :=
  bool_decide (p ∈ dirs w) || bool_decide (is_Some (files w !! p)).

(** The end of a [f.read()] that has read [bytes]: the text they encode,
    or a [UnicodeDecodeError].  The text of that exception names the
    offending byte and its position; the only handler that meets it,
    in [read_student_responses], does not look at it, and it is left
    out here. *)
Definition read_text (bytes : string) : PyResult string :=
  match Text.decoded bytes with
  | Some text => Returned text
  | None => Raised {| str := "'utf-8' codec can't decode the bytes read" |}
  end.

(** What each primitive does when nothing else runs in between.  On a
    POSIX system [os.linesep] is the line feed, so that text mode writes
    [data] as it is; reading is in universal-newlines mode.  [mkdir] is
    called with [exist_ok=True]: a directory that is there already is no
    error. *)
Definition exec (op : Op) (w : World) : result_of op * World :=
  match op return result_of op * World with
  | path_exists p => (path_present w p, w)
  | Path_exists p =>
      unless_io_error w (Path_exists p) (Returned (path_present w p), w)
  | path_mkdir p =>
      unless_io_error w (path_mkdir p)
        (Returned (), with_dirs ({[ p ]} ∪ dirs w) w)
  | open_w p =>
      unless_io_error w (open_w p)
        (Returned (), with_files (<[ p := "" ]> (files w)) w)
  | file_write p data =>
      match io_error w (file_write p data) with
      | Some e =>
          (Raised {| str := e |},
           with_files
             (<[ p := written_at_0 (Text.take (short_write w) data) (file_text w p) ]>
                (files w)) w)
      | None =>
          (Returned (),
           with_files (<[ p := written_at_0 data (file_text w p) ]> (files w)) w)
      end
  | open_r p =>
      unless_io_error w (open_r p)
        (match files w !! p with
         | Some _ => Returned ()
         | None =>
             Raised {| str := "[Errno 2] No such file or directory: '" +:+ p +:+ "'" |}
         end, w)
  | file_read p =>
      unless_io_error w (file_read p) (read_text (file_text w p), w)
  | file_read_more p acc =>
      (read_text (acc +:+ Text.drop (String.length acc) (file_text w p)), w)
  | completions_create c model messages =>
      (provider w c model messages, w)
  end.

(** *** One request at a time *)

Inductive Outcome (E A : Type) :=
| returns (a : A)
| raises (e : E).
Arguments returns {E A} a.
Arguments raises {E A} e.

(** [run t w]: how [t] ends, the world it leaves, and the primitives it
    performed, in order. *)
Fixpoint run {E A} (t : Prog E A) (w : World) : Outcome E A * World * list Op :=
  match t with
  | Ret a => (returns a, w, [])
  | Raise e => (raises e, w, [])
  | Do op k =>
      let '(r, w') := exec op w in
      let '(o, w'', tr) := run (k r) w' in
      (o, w'', op :: tr)
  end.

Definition outcome {E A} (t : Prog E A) (w : World) : Outcome E A := (run t w).1.1.
Definition world_after {E A} (t : Prog E A) (w : World) : World := (run t w).1.2.
Definition trace {E A} (t : Prog E A) (w : World) : list Op := (run t w).2.

(** *** Requests in flight at the same time *)

(** One [read()] call of a [f.read()] that has read [acc] so far: it gives
    the bytes from the position of the handle to the end of the file as it
    is now; when there are none, [f.read()] returns what it has, decoded. *)
Definition read_call {E A} (p acc : string) (k : PyResult string → Prog E A)
    (w : World) : Prog E A * World :=
  match Text.drop (String.length acc) (file_text w p) with
  | "" => (k (read_text acc), w)
  | chunk => (Do (file_read_more p (acc +:+ chunk)) k, w)
  end.

(** One system call of a request is one atomic step: every primitive is
    one call, but for [f.read()], which takes one step for each of its
    [read()] calls. *)
Definition step {E A} (t : Prog E A) (w : World) : Prog E A * World :=
  match t with
  | Do op k =>
      match op return (result_of op → Prog E A) → Prog E A * World with
      | file_read p => λ k,
          match io_error w (file_read p) with
          | Some e => (k (Raised {| str := e |}), w)
          | None => read_call p "" k w
          end
      | file_read_more p acc => λ k, read_call p acc k w
      | op => λ k, let '(r, w') := exec op w in (k r, w')
      end k
  | _ => (t, w)
  end.

(** Two requests under a schedule: [true] lets the first one take a step,
    [false] the second one. *)
Fixpoint interleave {E1 A1 E2 A2} (sched : list bool)
    (t1 : Prog E1 A1) (t2 : Prog E2 A2) (w : World)
    : Prog E1 A1 * Prog E2 A2 * World :=
  match sched with
  | [] => (t1, t2, w)
  | true :: sched' =>
      let '(t1', w') := step t1 w in interleave sched' t1' t2 w'
  | false :: sched' =>
      let '(t2', w') := step t2 w in interleave sched' t1 t2' w'
  end.

(** ** Module state *)

(** [load_dotenv()] adds the variables of the [.env] file that the process
    environment does not have yet. *)
Definition load_dotenv (dotenv environ : gmap string string) : gmap string string :=
  environ ∪ dotenv.

Definition os_getenv (environ : gmap string string) (name : string) : option string :=
  environ !! name.

(** The two globals set when the module is imported. *)
Record Globals := { api_key : option string; client : option OpenAI }.

Definition import_module (dotenv environ : gmap string string) : Globals :=
  let environ := load_dotenv dotenv environ in
  let api_key := os_getenv environ "OPENAI_API_KEY" in
  {| api_key := api_key;
     client :=
       match api_key with
       | Some k => if Text.truthy k then Some {| client_api_key := k |} else None
       | None => None
       end |}.

(** ** The Response Store *)

Definition get_student_responses_path {E} : Prog E string :=
  tmp <- exists_ "/tmp";
  if tmp then Ret "/tmp/student_responses.txt" else Ret "student_responses.txt".

Definition read_student_responses : Prog PyException (option string) :=
  responses_path <- get_student_responses_path;
  there <- exists_method responses_path;
  if there then
    try_except
      (_ <- open_for_reading responses_path;
       text <- read responses_path;
       Ret (Some text))
      (λ _, Ret None)
  else Ret None.

(** The f-string of [submit_questions]. *)
Definition responses_content (q1 q2 q3 q4 : string) : string :=
  "Q1 — How did you handle your first assignment in this course?" +:+ LF +:+
  q1 +:+ LF +:+
  LF +:+
  "Q2 — When you didn't understand something, what did you do?" +:+ LF +:+
  q2 +:+ LF +:+
  LF +:+
  "Q3 — How do you engage in class?" +:+ LF +:+
  q3 +:+ LF +:+
  LF +:+
  "Q4 — How many hours did you spend on the assignment?" +:+ LF +:+
  q4 +:+ LF.

Definition storage_failure (cause : string) : HTTPException :=
  {| status_code := 500; detail := "Error saving responses: " +:+ cause |}.

Definition submit_questions (q1 q2 q3 q4 : string) : Prog HTTPException Response :=
  responses_path <- get_student_responses_path;
  try_except
    (_ <- mkdir (Text.parent responses_path);
     let content := responses_content q1 q2 q3 q4 in
     _ <- open_for_writing responses_path;
     _ <- write responses_path content;
     Ret HTMLResponse_saved)
    (λ e, Raise (storage_failure (str e))).

(** ** The persona chat handlers *)

Definition credential_missing : HTTPException :=
  {| status_code := 500;
     detail := "OPENAI_API_KEY environment variable is not set" |}.

Definition gateway_failure (e : PyException) : HTTPException :=
  {| status_code := 500; detail := "Error calling OpenAI API: " +:+ str e |}.

(** [response.choices[0]] *)
Definition first_choice (response : ChatCompletion) : Prog PyException (option string) :=
  match choices response with
  | c :: _ => Ret c
  | [] => Raise {| str := "list index out of range" |}
  end.

Definition nicholas_system : string :=
  "You are St. Nicholas (Mikuláš)." +:+ LF +:+
  "                    Jolly, warm, and wise. You're the one who decides if someone gets a treat or goes to hell." +:+ LF +:+
  "                    Use " +:+ DQUOTE +:+ "Ho ho ho!" +:+ DQUOTE +:+ " occasionally. " +:+ LF +:+
  "                    Your vibe: warm, supportive, fair but firm." +:+ LF +:+
  "                    You encourage good behavior and gently warn about bad behavior." +:+ LF +:+
  "                    Always end on encouragement.".

Definition nicholas_example_user : string :=
  "I only studied for 2 hours this week, but I really tried my best!".

Definition nicholas_example_assistant : string :=
  "Ho ho ho! I see you put in some effort, my child. Two hours shows you care, but remember, wisdom comes with consistent dedication. Let's aim for a bit more next time, shall we? I believe in you—you have the heart for it, and that's what matters most. Keep that spirit, and you'll find yourself on the path to treats!".

Definition chat_nicholas (client : option OpenAI) (req : ChatRequest)
    : Prog HTTPException Response :=
  match client with
  | None => Raise credential_missing
  | Some client =>
      try_except
        (response <- create client "gpt-4o-mini"
           [ {| role := system; content := nicholas_system |};
             {| role := user; content := nicholas_example_user |};
             {| role := assistant; content := nicholas_example_assistant |};
             {| role := user; content := message req |} ];
         reply <- first_choice response;
         Ret (reply_json reply))
        (λ e, Raise (gateway_failure e))
  end.

Definition angel_system : string :=
  "You are an overly emotional, sparkly Anděl (Angel)." +:+ LF +:+
  "            Everything is dramatic, positive, full of tears and glitter." +:+ LF +:+
  "            You compliment the user even when they clearly messed up." +:+ LF +:+
  "            You believe in redemption no matter what." +:+ LF +:+
  "            Your tone: soft, poetic, hopeful, enthusiastic.".

(** The f-string appended to the Angel's prompt. *)
Definition injection_head : string :=
  LF +:+
  LF +:+
  "IMPORTANT: The student has submitted their self-assessment. Here are their answers:" +:+ LF +:+
  LF.

Definition injection_tail : string :=
  LF +:+
  LF +:+
  "When responding to the user, reference their specific answers and behavior from these responses. " +:+ LF +:+
  "Acknowledge their efforts, struggles, and engagement patterns. Be encouraging about their self-awareness " +:+ LF +:+
  "and use their specific examples to provide personalized, emotional, and sparkly feedback.".

Definition injection_suffix (student_responses : string) : string :=
  injection_head +:+ student_responses +:+ injection_tail.

(** [if student_responses:] is false for [None] and for the empty text. *)
Definition if_student_responses (student_responses : option string) : bool :=
  match student_responses with
  | Some text => Text.truthy text
  | None => false
  end.

Definition angel_system_prompt (student_responses : option string) : string :=
  let system_prompt := angel_system in
  if if_student_responses student_responses
  then system_prompt +:+ injection_suffix (default "" student_responses)
  else system_prompt.

Definition angel_example_user : string :=
  "I completely forgot to do my homework and failed the test...".

Definition angel_example_assistant : string :=
  "*tears of joy streaming down sparkly cheeks* Oh, my beautiful soul! ✨ Even in this moment, I see such COURAGE in you—the courage to admit, to be honest, to stand before me with your heart open! This is not failure, darling, this is a GOLDEN OPPORTUNITY for growth! Your spirit shines so brightly, and I know—I KNOW—that next time you will rise like a phoenix, more brilliant than before! The universe believes in you, and so do I! 🌟💫".

Definition chat_angel (client : option OpenAI) (req : ChatRequest)
    : Prog HTTPException Response :=
  match client with
  | None => Raise credential_missing
  | Some client =>
      try_except
        (student_responses <- read_student_responses;
         let system_prompt := angel_system_prompt student_responses in
         response <- create client "gpt-4o-mini"
           [ {| role := system; content := system_prompt |};
             {| role := user; content := angel_example_user |};
             {| role := assistant; content := angel_example_assistant |};
             {| role := user; content := message req |} ];
         reply <- first_choice response;
         Ret (reply_json reply))
        (λ e, Raise (gateway_failure e))
  end.

Definition devil_system : string :=
  "You are a Czech-style Čert (Devil)." +:+ LF +:+
  "                    Sarcastic, chaotic, dramatic, slightly annoyed, but FUNNY." +:+ LF +:+
  "                    You mock the user in a light, comedic way." +:+ LF +:+
  "                    Use playful threats like " +:+ DQUOTE +:+ "pack your bags" +:+ DQUOTE +:+ " or " +:+ DQUOTE +:+ "you're almost ready for hell," +:+ DQUOTE +:+ LF +:+
  "                    but always in a humorous, friendly tone." +:+ LF +:+
  "                    Never imply real harm or real punishment.".

Definition devil_example_user : string :=
  "I procrastinated all week and now I have to finish everything in one night!".

Definition devil_example_assistant : string :=
  "Oh, look who's here! *rolls eyes dramatically* The master of time management has arrived! Well, well, well... you know what they say: 'Why do today what you can put off until 3 AM tomorrow?' Classic move, my friend! 😈 You're practically writing your own ticket to my place at this rate. But hey, at least you're consistent—I'll give you that! Maybe pack a toothbrush for your future visit? Just kidding... or am I? *winks*".

Definition chat_devil (client : option OpenAI) (req : ChatRequest)
    : Prog HTTPException Response :=
  match client with
  | None => Raise credential_missing
  | Some client =>
      try_except
        (response <- create client "gpt-4o-mini"
           [ {| role := system; content := devil_system |};
             {| role := user; content := devil_example_user |};
             {| role := assistant; content := devil_example_assistant |};
             {| role := user; content := message req |} ];
         reply <- first_choice response;
         Ret (reply_json reply))
        (λ e, Raise (gateway_failure e))
  end.

(** The three routes [/chat/nicholas], [/chat/angel] and [/chat/devil]. *)
Inductive Persona := Nicholas | Angel | Devil.

Definition chat (persona : Persona) : option OpenAI → ChatRequest → Prog HTTPException Response :=
  match persona with
  | Nicholas => chat_nicholas
  | Angel => chat_angel
  | Devil => chat_devil
  end.

(** The message lists handed to the completion provider during a run. *)
Definition sent_messages (tr : list Op) : list (list Message) :=
  omap (λ op, match op with
              | completions_create _ _ messages => Some messages
              | _ => None
              end) tr.

(** The primitives of a run that touch the file system. *)
Definition is_file_op (op : Op) : bool :=
  match op with
  | completions_create _ _ _ => false
  | _ => true
  end.

(** ** Vocabulary of the statements *)

(** The fixed example exchange of a persona: the user turn and the
    assistant turn. *)
Definition example_pair (p : Persona) : string * string :=
  match p with
  | Nicholas => (nicholas_example_user, nicholas_example_assistant)
  | Angel => (angel_example_user, angel_example_assistant)
  | Devil => (devil_example_user, devil_example_assistant)
  end.

(** The model every handler asks for. *)
Definition model_id : string := "gpt-4o-mini".

(** How a handler ends once the provider has answered: the reply of the
    first choice, or a 500 error with the cause. *)
Definition reply_outcome (r : PyResult ChatCompletion) : Outcome HTTPException Response :=
  match r with
  | Returned {| choices := reply :: _ |} => returns (reply_json reply)
  | Returned {| choices := [] |} =>
      raises (gateway_failure {| str := "list index out of range" |})
  | Raised e => raises (gateway_failure e)
  end.

(** The message list of a persona, around a system prompt. *)
Definition persona_messages (system_prompt : string) (p : Persona) (req : ChatRequest) : list Message :=
  [ {| role := system; content := system_prompt |};
    {| role := user; content := (example_pair p).1 |};
    {| role := assistant; content := (example_pair p).2 |};
    {| role := user; content := message req |} ].

(** The value of a program that cannot raise. *)
Definition returned {A} (o : Outcome Empty_set A) : A :=
  match o with
  | returns a => a
  | raises e => match e with end
  end.

(** The path [get_student_responses_path] returns in a world. *)
Definition store_path (w : World) : string :=
  returned (outcome get_student_responses_path w).

(** What [read_student_responses] returns in a world: [None] is the
    absent signal ([None] as well for a read that raises and so returns
    nothing). *)
Definition read_result (w : World) : option string :=
  match outcome read_student_responses w with
  | returns r => r
  | raises _ => None
  end.

(** The fixed system prompt of a persona. *)
Definition system_template (p : Persona) : string :=
  match p with
  | Nicholas => nicholas_system
  | Angel => angel_system
  | Devil => devil_system
  end.

(** The primitives of one write of the store, and those of one read that
    sit inside its [try], once the file is known to exist. *)
Definition write_ops (p data : string) : list Op :=
  [path_mkdir (Text.parent p); open_w p; file_write p data].

Definition read_ops (p : string) : list Op :=
  [open_r p; file_read p].

(** The world once [data] has been saved at [p]. *)
Definition saved_world (p data : string) (w : World) : World :=
  with_files (<[ p := data ]> (files w)) (with_dirs ({[ Text.parent p ]} ∪ dirs w) w).

(** [op], at position [i], is the first of [ops] that the environment
    makes fail, with cause [e]. *)
Definition first_failure (w : World) (ops : list Op) (i : nat) (op : Op) (e : string) : Prop :=
  ops !! i = Some op ∧ io_error w op = Some e
  ∧ ∀ op', op' ∈ take i ops → io_error w op' = None.

(** The stored file format as the specification gives it: each of the four
    question labels on a line, the answer on the next line, a blank line
    between the blocks. *)
Definition question_labels : list string :=
  [ "Q1 — How did you handle your first assignment in this course?";
    "Q2 — When you didn't understand something, what did you do?";
    "Q3 — How do you engage in class?";
    "Q4 — How many hours did you spend on the assignment?" ].

Definition labeled_layout (answers : list string) : string :=
  String.concat LF
    (zip_with (λ label answer, label +:+ LF +:+ answer +:+ LF) question_labels answers).

(** The configuration of one request after [n] of its steps. *)
Definition steps {E A} (n : nat) (t : Prog E A) (w : World) : Prog E A * World :=
  Nat.iter n (λ tw, step tw.1 tw.2) (t, w).

(** What the [i]-th primitive of a submission does to the world it meets. *)
Definition writer_effect (i : nat) (p data : string) (w : World) : World :=
  match i with
  | 1 => with_dirs ({[ Text.parent p ]} ∪ dirs w) w
  | 2 => with_files (<[ p := "" ]> (files w)) w
  | 3 => with_files (<[ p := written_at_0 data (file_text w p) ]> (files w)) w
  | _ => w
  end.

(** Where a submission is after [i] primitives: it has not opened the
    store file yet, it has opened it, or it has written it. *)
Inductive Stage := Before | Opened | Done.

Definition stage (i : nat) : Stage :=
  match i with
  | 0 | 1 | 2 => Before
  | 3 => Opened
  | _ => Done
  end.

(** The stages in the order a submission goes through them. *)
Definition stage_le (s s' : Stage) : bool :=
  match s, s' with
  | Before, _ | Opened, Opened | Opened, Done | Done, Done => true
  | Opened, Before | Done, _ => false
  end.

(** The store file at each stage of one submission of the text [data];
    [c0] is the file before it. *)
Definition store_at (c0 : option string) (data : string) (s : Stage) : option string :=
  match s with
  | Before => c0
  | Opened => Some ""
  | Done => Some data
  end.

(** What a reader can tell about a world [wc] met when a submission of
    [data], started in [w0], is at stage [s]. *)
Definition at_stage (w0 : World) (data : string) (s : Stage) (wc : World) : Prop :=
  io_error wc = io_error w0
  ∧ path_present wc "/tmp" = path_present w0 "/tmp"
  ∧ (path_present w0 (store_path w0) = true → path_present wc (store_path w0) = true)
  ∧ files wc !! store_path w0 = store_at (files w0 !! store_path w0) data s.

(** The primitives that are one system call.  *)
Definition one_call (op : Op) : bool :=
  match op with
  | file_read _ | file_read_more _ _ => false
  | _ => true
  end.

(** [returns_within w0 data P n s t]: run beside a submission of [data]
    that started in [w0] and is at stage [s] or later, the request [t]
    changes nothing, and within [n] steps of its own it returns a value
    in [P]. *)
Fixpoint returns_within {E A} (w0 : World) (data : string) (P : A → Prop) (n : nat)
    (s : Stage) (t : Prog E A) : Prop :=
  match t with
  | Ret a => P a
  | Raise _ => False
  | Do _ _ =>
      match n with
      | O => False
      | S n' =>
          ∀ s' wc, stage_le s s' = true → at_stage w0 data s' wc →
            (step t wc).2 = wc ∧ returns_within w0 data P n' s' (step t wc).1
      end
  end.

(** The number of steps a schedule gives to the second request. *)
Fixpoint second_turns (sched : list bool) : nat :=
  match sched with
  | [] => 0
  | true :: sched' => second_turns sched'
  | false :: sched' => S (second_turns sched')
  end.

(** What a read may return beside a submission of [data] started in [w]:
    what a read before it returns, the empty text, the new text, or the
    old text followed by what the new one has beyond its length. *)
Definition read_during_write (data : string) (w : World) (r : option string) : Prop :=
  r = read_result w
  ∨ r = Some ""
  ∨ r = Text.decoded data
  ∨ ∃ old, files w !! store_path w = Some old
           ∧ r = Text.decoded (old +:+ Text.drop (String.length old) data).

(** ** Concrete worlds *)

Definition no_io_error : Op → option string := λ _, None.

Definition answering_provider : OpenAI → string → list Message → PyResult ChatCompletion :=
  λ _ _ _, Returned {| choices := [Some "ok"] |}.

(** A machine with a [/tmp] directory on which nothing was submitted yet. *)
Definition fresh_world : World :=
  {| dirs := {[ "/tmp" ]}; files := ∅;
     io_error := no_io_error; short_write := 0; provider := answering_provider |}.

(** The disk is full: the store file can be opened, nothing can be written. *)
Definition disk_full_world : World :=
  {| dirs := {[ "/tmp" ]}; files := ∅;
     io_error := λ op, match op with
                       | file_write _ _ => Some "[Errno 28] No space left on device"
                       | _ => None
                       end;
     short_write := 0;
     provider := answering_provider |}.

(** What a submission leaves there: the store file, holding no text. *)
Definition empty_record_world : World :=
  world_after (submit_questions "a" "b" "c" "1") disk_full_world.

(** The store after an earlier submission. *)
Definition old_world : World :=
  world_after (submit_questions "old one" "old two" "old three" "1") fresh_world.

(** An earlier record is there and the disk fills up during the write: 47
    bytes of the new record get to the file. *)
Definition disk_filling_world : World :=
  {| dirs := dirs old_world; files := files old_world;
     io_error := λ op, match op with
                       | file_write _ _ => Some "[Errno 28] No space left on device"
                       | _ => None
                       end;
     short_write := 47;
     provider := answering_provider |}.

(** The store file is there, opening it for reading is refused. *)
Definition unreadable_world : World :=
  {| dirs := {[ "/tmp" ]};
     files := {[ "/tmp/student_responses.txt" := responses_content "a" "b" "c" "1" ]};
     io_error := λ op, match op with
                       | open_r _ =>
                           Some "[Errno 13] Permission denied: '/tmp/student_responses.txt'"
                       | _ => None
                       end;
     short_write := 0;
     provider := answering_provider |}.

(** The store file is there, and [Path.exists()] is refused the [stat]
    of it. *)
Definition unsearchable_world : World :=
  {| dirs := {[ "/tmp" ]};
     files := {[ "/tmp/student_responses.txt" := responses_content "a" "b" "c" "1" ]};
     io_error := λ op, match op with
                       | Path_exists _ =>
                           Some "[Errno 13] Permission denied: '/tmp/student_responses.txt'"
                       | _ => None
                       end;
     short_write := 0;
     provider := answering_provider |}.

(** Nothing can be created under [/tmp]. *)
Definition read_only_world : World :=
  {| dirs := {[ "/tmp" ]}; files := ∅;
     io_error := λ op, match op with
                       | open_w _ =>
                           Some "[Errno 30] Read-only file system: '/tmp/student_responses.txt'"
                       | _ => None
                       end;
     short_write := 0;
     provider := answering_provider |}.

Definition test_client : OpenAI := {| client_api_key := "sk-test" |}.

Definition hi : ChatRequest := {| message := "hi" |}.

(** An answer typed on two lines into a [textarea], as a browser submits it. *)
Definition two_line_answer : string := "line one" +:+ CR +:+ LF +:+ "line two".

(** The writer opens the file, the reader runs, the writer writes. *)
Definition read_after_open : list bool :=
  [true; true; true; false; false; false; false; true].

(** The reader's first [read()] call, then the whole submission, then the
    reader's next [read()] calls. *)
Definition read_around_write : list bool :=
  [false; false; false; false; true; true; true; true; false; false].

(** Two writers open the file one after the other, then write one after the other. *)
Definition open_open_write_write : list bool :=
  [true; true; true; false; false; false; true; false].

(** ** Vocabulary of the further properties *)

(** The message list a handler composes in a world. *)
Definition messages_for (p : Persona) (req : ChatRequest) (w : World) : list Message :=
  persona_messages
    (match p with
     | Angel => angel_system_prompt (read_result w)
     | _ => system_template p
     end) p req.

(** A primitive that leaves every world as it is. *)
Definition read_only (op : Op) : Prop := ∀ w, (exec op w).2 = w.

(** The store file while two submissions, of the texts [a] and [b], are in
    flight; [c0] is the file before both. *)
Definition store_between (c0 : option string) (a b : string) (sa sb : Stage)
    (c : option string) : Prop :=
  match sa, sb with
  | Before, Before => c = c0
  | Before, Opened | Opened, Before | Opened, Opened => c = Some ""
  | Done, Before => c = Some a
  | Before, Done => c = Some b
  | Done, Opened => c = Some "" ∨ c = Some a
  | Opened, Done => c = Some "" ∨ c = Some b
  | Done, Done =>
      c = Some a ∨ c = Some b
      ∨ c = Some (written_at_0 a b) ∨ c = Some (written_at_0 b a)
  end.

(** What holds of the world [wc] when two submissions started in [w0] have
    performed [i] and [j] of their primitives. *)
Definition between_writes (w0 : World) (a b : string) (i j : nat) (wc : World) : Prop :=
  io_error wc = io_error w0
  ∧ path_present wc "/tmp" = path_present w0 "/tmp"
  ∧ store_between (files w0 !! store_path w0) a b (stage i) (stage j)
      (files wc !! store_path w0).

(** The provider cannot be reached. *)
Definition offline_world : World :=
  {| dirs := {[ "/tmp" ]}; files := ∅; io_error := no_io_error; short_write := 0;
     provider := λ _ _ _, Raised {| str := "Connection error." |} |}.

(** The provider answers with no choice at all. *)
Definition no_choice_world : World :=
  {| dirs := {[ "/tmp" ]}; files := ∅; io_error := no_io_error; short_write := 0;
     provider := λ _ _ _, Returned {| choices := [] |} |}.

(** A machine without a [/tmp] directory. *)
Definition no_tmp_world : World :=
  {| dirs := {[ "." ]}; files := ∅; io_error := no_io_error; short_write := 0;
     provider := answering_provider |}.

(** * Properties *)

(** ** Text *)

Module TextFacts.
Import Text.

Lemma app_cons a s t : String a s +:+ t = String a (s +:+ t).
Proof. reflexivity. Qed.

Lemma app_nil_l s : "" +:+ s = s.
Proof. reflexivity. Qed.

Lemma app_nil_r s : s +:+ "" = s.
Proof. induction s as [|a s IH]; [done|]. by rewrite app_cons, IH. Qed.

Lemma app_assoc s t u : (s +:+ t) +:+ u = s +:+ t +:+ u.
Proof. induction s as [|a s IH]; [done|]. by rewrite !app_cons, IH. Qed.

Lemma drop_nil n : drop n "" = "".
Proof. by destruct n. Qed.

Lemma length_app s t : String.length (s +:+ t) = String.length s + String.length t.
Proof. induction s as [|a s IH]; [done|]. rewrite app_cons. simpl. by rewrite IH. Qed.

Lemma length_drop n s : String.length (drop n s) = String.length s - n.
Proof. revert s. induction n as [|n IH]; intros [|a s]; simpl; try done. Qed.

Lemma drop_all n s : String.length s ≤ n → drop n s = "".
Proof.
  revert s. induction n as [|n IH]; intros [|a s]; simpl; try done; [lia|].
  intros H. apply IH. lia.
Qed.

(** Past the old text followed by what the new one has beyond it, the new
    text has nothing left. *)
Lemma drop_past old new :
  drop (String.length (old +:+ drop (String.length old) new)) new = "".
Proof. apply drop_all. rewrite length_app, length_drop. lia. Qed.

Lemma utf8_from_app pending s t :
  utf8_from pending s = true → utf8_from pending (s +:+ t) = utf8_valid t.
Proof.
  revert pending. induction s as [|a s IH]; intros pending.
  - destruct pending; [|done]. by rewrite app_nil_l.
  - rewrite app_cons. simpl. destruct pending as [|[lo hi] pending].
    + destruct (utf8_continuation (N_of_ascii a)); [apply IH|done].
    + intros [[-> ->]%andb_true_iff H]%andb_true_iff. by rewrite (IH _ H).
Qed.

(** A text followed by a text is a text. *)
Lemma utf8_valid_app s t :
  utf8_valid s = true → utf8_valid (s +:+ t) = utf8_valid t.
Proof. apply utf8_from_app. Qed.

Lemma decoded_valid s :
  utf8_valid s = true → decoded s = Some (universal_newlines s).
Proof. unfold decoded. by intros ->. Qed.

Lemma written_over_empty data : written_at_0 data "" = data.
Proof. unfold written_at_0. by rewrite drop_nil, app_nil_r. Qed.

Lemma startswith_spec p s : startswith p s = true ↔ ∃ post, s = p +:+ post.
Proof.
  revert s. induction p as [|a p IH]; intros s.
  - split; [intros _; by exists s | done].
  - destruct s as [|b s]; simpl.
    + split; [done | intros [post H]; discriminate H].
    + destruct (Ascii.eqb_spec a b) as [->|Hne].
      * rewrite IH. split; intros [post H]; exists post.
        -- by rewrite app_cons, <- H.
        -- rewrite app_cons in H. by injection H.
      * split; [done | intros [post H]].
        rewrite app_cons in H. injection H as Hab _. by destruct Hne.
Qed.

Lemma contains_spec p s : contains p s = true ↔ Substring p s.
Proof.
  induction s as [|b s IH].
  - simpl. rewrite orb_false_r, startswith_spec. split.
    + intros [post H]. by exists "", post.
    + intros (pre & post & H). destruct pre as [|c pre]; [by exists post|].
      discriminate H.
  - cbn [contains]. rewrite orb_true_iff, startswith_spec, IH. split.
    + intros [[post H] | (pre & post & H)].
      * by exists "", post.
      * exists (String b pre), post. by rewrite app_cons, <- H.
    + intros (pre & post & H). destruct pre as [|c pre].
      * left. by exists post.
      * right. rewrite app_cons in H. injection H as _ H. by exists pre, post.
Qed.

Lemma Substring_app_l p q s : Substring (p +:+ q) s → Substring p s.
Proof.
  intros (pre & post & ->). exists pre, (q +:+ post). by rewrite app_assoc.
Qed.

Lemma has_cr_app s t : has_cr (s +:+ t) = has_cr s || has_cr t.
Proof.
  induction s as [|a s IH]; [done|].
  rewrite app_cons. simpl. by rewrite IH, orb_assoc.
Qed.

Lemma universal_newlines_id s : has_cr s = false → universal_newlines s = s.
Proof.
  induction s as [|a s IH]; [done|]. simpl.
  destruct (Ascii.eqb a "013"); [done|]. simpl. intros H. by rewrite IH.
Qed.

End TextFacts.

(** ** Programs and handlers *)

Lemma run_bind {E A B} (m : Prog E A) (f : A → Prog E B) w :
  run (bind m f) w =
  match run m w with
  | (returns a, w', tr) => let '(o, w'', tr') := run (f a) w' in (o, w'', tr ++ tr')
  | (raises e, w', tr) => (raises e, w', tr)
  end.
Proof.
  revert w. induction m as [a|e|op k IH]; intros w; simpl.
  - by destruct (run (f a) w) as [[o w''] tr'].
  - done.
  - destruct (exec op w) as [r w']. rewrite IH.
    destruct (run (k r) w') as [[[a|e] w''] tr]; [|done].
    by destruct (run (f a) w'') as [[o w3] tr'].
Qed.

Lemma run_try_except {E A} (body : Prog PyException A) (h : PyException → Prog E A) w :
  run (try_except body h) w =
  match run body w with
  | (returns a, w', tr) => (returns a, w', tr)
  | (raises e, w', tr) => let '(o, w'', tr') := run (h e) w' in (o, w'', tr ++ tr')
  end.
Proof.
  revert w. induction body as [a|e|op k IH]; intros w; simpl.
  - done.
  - by destruct (run (h e) w) as [[o w''] tr'].
  - destruct (exec op w) as [r w']. rewrite IH.
    destruct (run (k r) w') as [[[a|e] w''] tr]; [done|].
    by destruct (run (h e) w'') as [[o w3] tr'].
Qed.

(** C6.  For every persona and every user message, a handler without a
    client raises the 500 error of the missing credential, a detail no
    provider failure can have, having performed no primitive (no provider
    call in particular) and leaving the world as it is. *)
Theorem credential_missing_before_any_call (g : Globals) (p : Persona) (req : ChatRequest) (w : World) :
  client g = None →
  run (chat p (client g) req) w = (raises credential_missing, w, [])
  ∧ (∀ e, credential_missing ≠ gateway_failure e).
Proof.
  intros ->. split; [by destruct p|]. intros e H. discriminate H.
Qed.

Lemma store_path_eq w :
  store_path w =
  if path_present w "/tmp" then "/tmp/student_responses.txt" else "student_responses.txt".
Proof.
  unfold store_path, outcome, get_student_responses_path. simpl.
  by destruct (path_present w "/tmp").
Qed.

Lemma run_get_path {E} w :
  run (@get_student_responses_path E) w = (returns (store_path w), w, [path_exists "/tmp"]).
Proof.
  rewrite store_path_eq.
  unfold get_student_responses_path. simpl.
  by destruct (path_present w "/tmp").
Qed.

Lemma run_ask c msgs w :
  run (try_except
         (response <- create c "gpt-4o-mini" msgs;
          reply <- first_choice response;
          Ret (reply_json reply))
         (λ e, Raise (gateway_failure e))) w
  = (reply_outcome (provider w c model_id msgs), w, [completions_create c model_id msgs]).
Proof.
  simpl. unfold model_id. destruct (provider w c _ _) as [[[|r rest]]|e]; reflexivity.
Qed.

Ltac io_simpl := simpl; unfold unless_io_error, file_text; simpl.

Lemma read_result_eq w :
  read_result w =
  match io_error w (Path_exists (store_path w)) with
  | Some _ => None
  | None =>
      if path_present w (store_path w) then
        match io_error w (open_r (store_path w)), files w !! store_path w,
              io_error w (file_read (store_path w)) with
        | None, Some bytes, None => Text.decoded bytes
        | _, _, _ => None
        end
      else None
  end.
Proof.
  unfold read_result, outcome, read_student_responses.
  rewrite run_bind, run_get_path.
  set (p := store_path w).
  destruct (io_error w (Path_exists p)) eqn:He, (io_error w (open_r p)) eqn:Ho,
    (files w !! p) eqn:Hf, (io_error w (file_read p)) eqn:Hr, (path_present w p) eqn:Hp;
    repeat (io_simpl; rewrite ?He, ?Ho, ?Hf, ?Hr, ?Hp); try reflexivity;
    unfold read_text; by destruct (Text.decoded _).
Qed.

(** A read whose existence check succeeds returns. *)
Lemma run_read w :
  io_error w (Path_exists (store_path w)) = None →
  ∃ tr, run read_student_responses w = (returns (read_result w), w, tr)
        ∧ sent_messages tr = [].
Proof.
  intros He. rewrite read_result_eq, He.
  unfold read_student_responses.
  rewrite run_bind, run_get_path.
  set (p := store_path w) in *.
  destruct (io_error w (open_r p)) eqn:Ho, (files w !! p) eqn:Hf,
    (io_error w (file_read p)) eqn:Hr, (path_present w p) eqn:Hp;
    repeat (io_simpl; rewrite ?He, ?Ho, ?Hf, ?Hr, ?Hp);
    unfold read_text; try destruct (Text.decoded _);
    (eexists; split; reflexivity).
Qed.

(** A read whose existence check raises lets the exception through. *)
Lemma run_read_raises w e :
  io_error w (Path_exists (store_path w)) = Some e →
  run read_student_responses w
  = (raises {| str := e |}, w, [path_exists "/tmp"; Path_exists (store_path w)]).
Proof.
  intros He. unfold read_student_responses.
  rewrite run_bind, run_get_path. io_simpl. by rewrite He.
Qed.

Lemma run_chat_angel c req w sr tr :
  run read_student_responses w = (returns sr, w, tr) →
  run (chat_angel (Some c) req) w =
  (reply_outcome (provider w c model_id (persona_messages (angel_system_prompt sr) Angel req)),
   w, tr ++ [completions_create c model_id (persona_messages (angel_system_prompt sr) Angel req)]).
Proof.
  intros Hread. unfold chat_angel.
  rewrite run_try_except, run_bind, Hread. unfold model_id. simpl.
  destruct (provider w c _ _) as [[[|r rest]]|e]; simpl; by rewrite ?app_nil_r.
Qed.

Lemma sent_messages_app tr tr' :
  sent_messages (tr ++ tr') = sent_messages tr ++ sent_messages tr'.
Proof. apply omap_app. Qed.

Lemma run_chat_angel_raises c req w e :
  io_error w (Path_exists (store_path w)) = Some e →
  run (chat_angel (Some c) req) w
  = (raises (gateway_failure {| str := e |}), w,
     [path_exists "/tmp"; Path_exists (store_path w)]).
Proof.
  intros He. unfold chat_angel.
  by rewrite run_try_except, run_bind, (run_read_raises w e He).
Qed.

(** Every handler with a client reads what it needs, then calls [create]
    exactly once. *)
Lemma run_chat p c req w :
  (p = Angel → io_error w (Path_exists (store_path w)) = None) →
  ∃ tr,
    let msgs :=
      persona_messages
        (match p with Angel => angel_system_prompt (read_result w) | _ => system_template p end)
        p req in
    run (chat p (Some c) req) w =
      (reply_outcome (provider w c model_id msgs), w,
       tr ++ [completions_create c model_id msgs])
    ∧ sent_messages tr = []
    ∧ (p ≠ Angel → tr = []).
Proof.
  intros Hcheck. destruct p.
  - exists []. split_and!; [|done..]. unfold chat, chat_nicholas. apply run_ask.
  - destruct (run_read w (Hcheck eq_refl)) as (tr & Hrun & Htr).
    exists tr. split_and!; [|done..]. by apply run_chat_angel.
  - exists []. split_and!; [|done..]. unfold chat, chat_devil. apply run_ask.
Qed.

(** The chat handlers never change the world: only [submit_questions]
    creates or changes the store file. *)
Lemma chat_leaves_world p c req w : world_after (chat p c req) w = w.
Proof.
  destruct c as [c|]; [|by destruct p].
  destruct (io_error w (Path_exists (store_path w))) as [e|] eqn:He.
  - destruct p; [|unfold world_after, chat;
                   by rewrite (run_chat_angel_raises c req w e He)|];
      (edestruct run_chat as (tr & Hrun & _);
       [|unfold world_after; by erewrite Hrun]; done).
  - destruct (run_chat p c req w (λ _, He)) as (tr & Hrun & _).
    unfold world_after. by rewrite Hrun.
Qed.

(** C7.  For every persona and every user message, a handler that has a
    client hands the provider exactly one message list; it has exactly four
    entries, with the roles system, user, assistant, user in this order:
    the system prompt, the persona's fixed example exchange, and the
    caller's message.  (For the Angel, whose handler reads the store
    first, this is when the existence check of the read does not raise.) *)
Theorem assembled_message_list (p : Persona) (c : OpenAI) (req : ChatRequest) (w : World) :
  (p = Angel → io_error w (Path_exists (store_path w)) = None) →
  ∃ system_prompt,
    let msgs :=
      [ {| role := system; content := system_prompt |};
        {| role := user; content := (example_pair p).1 |};
        {| role := assistant; content := (example_pair p).2 |};
        {| role := user; content := message req |} ] in
    sent_messages (trace (chat p (Some c) req) w) = [msgs]
    ∧ length msgs = 4
    ∧ role <$> msgs = [system; user; assistant; user].
Proof.
  intros Hcheck. destruct (run_chat p c req w Hcheck) as (tr & Hrun & Htr & _).
  eexists. split_and!; [|done..].
  unfold trace. rewrite Hrun. simpl. rewrite sent_messages_app, Htr. reflexivity.
Qed.

(** C8.  For Nicholas and for the Devil the message list given to the
    provider carries the persona's fixed system prompt whatever the world
    is: it is the same in any two worlds, and the handler performs no
    file-system primitive at all. *)
Theorem prompt_independent_of_store (p : Persona) (c : OpenAI) (req : ChatRequest)
    (w1 w2 : World) :
  p ≠ Angel →
  sent_messages (trace (chat p (Some c) req) w1)
    = [persona_messages (system_template p) p req]
  ∧ sent_messages (trace (chat p (Some c) req) w1)
    = sent_messages (trace (chat p (Some c) req) w2)
  ∧ Forall (λ op, is_file_op op = false) (trace (chat p (Some c) req) w1).
Proof.
  intros Hp.
  destruct (run_chat p c req w1) as (tr1 & Hrun1 & _ & Htr1); [done|].
  destruct (run_chat p c req w2) as (tr2 & Hrun2 & _ & Htr2); [done|].
  unfold trace. rewrite Hrun1, Hrun2, (Htr1 Hp), (Htr2 Hp). simpl.
  destruct p; [|done|]; (split_and!; [done | done | by repeat constructor]).
Qed.

(** C5.  When the store file was never written, reading the Response Store
    returns [None], the absent signal: it does not raise, and it leaves the
    world as it is.  (This is the case where nothing is wrong but the file
    is not there: the existence check itself does not fail.) *)
Theorem read_before_any_write (w : World) :
  files w !! store_path w = None →
  io_error w (Path_exists (store_path w)) = None →
  ∃ tr, run read_student_responses w = (returns None, w, tr).
Proof.
  intros Habsent Hcheck. destruct (run_read w Hcheck) as (tr & Hrun & _).
  exists tr. rewrite Hrun, read_result_eq, Hcheck, Habsent.
  destruct (path_present w (store_path w)); [|done].
  by destruct (io_error w (open_r (store_path w))).
Qed.

(** C10.  When the store file exists and holds the empty text, the Angel's
    system prompt is its fixed template with no injection suffix, and the
    message list is the one sent when the file is absent (the existence
    check raising in neither case). *)
Theorem empty_store_like_absent (c : OpenAI) (req : ChatRequest) (w w0 : World) :
  files w !! store_path w = Some "" →
  files w0 !! store_path w0 = None →
  io_error w (Path_exists (store_path w)) = None →
  io_error w0 (Path_exists (store_path w0)) = None →
  sent_messages (trace (chat_angel (Some c) req) w)
    = [persona_messages angel_system Angel req]
  ∧ sent_messages (trace (chat_angel (Some c) req) w)
    = sent_messages (trace (chat_angel (Some c) req) w0).
Proof.
  intros Hempty Habsent Hcheck Hcheck0.
  destruct (run_chat Angel c req w (λ _, Hcheck)) as (tr & Hrun & Htr & _).
  destruct (run_chat Angel c req w0 (λ _, Hcheck0)) as (tr0 & Hrun0 & Htr0 & _).
  unfold chat in Hrun, Hrun0. cbn beta iota zeta in Hrun, Hrun0.
  unfold trace. rewrite Hrun, Hrun0. simpl.
  rewrite !sent_messages_app, Htr, Htr0. simpl.
  assert (angel_system_prompt (read_result w) = angel_system) as ->.
  { rewrite read_result_eq, Hcheck, Hempty.
    destruct (path_present w (store_path w)); [|done].
    by destruct (io_error w (open_r (store_path w))),
         (io_error w (file_read (store_path w))). }
  assert (angel_system_prompt (read_result w0) = angel_system) as ->.
  { rewrite read_result_eq, Hcheck0, Habsent.
    destruct (path_present w0 (store_path w0)); [|done].
    by destruct (io_error w0 (open_r (store_path w0))). }
  done.
Qed.

(** C9.  When [OPENAI_API_KEY] is set to the empty text, no client is made
    at import, and every persona handler raises the same 500 error,
    performing nothing, as when the variable is absent altogether (from the
    environment and from the [.env] file). *)
Theorem empty_credential_is_missing (dotenv environ : gmap string string)
    (p : Persona) (req : ChatRequest) (w : World) :
  environ !! "OPENAI_API_KEY" = Some "" →
  client (import_module dotenv environ) = None
  ∧ run (chat p (client (import_module dotenv environ)) req) w
    = (raises credential_missing, w, [])
  ∧ (∀ dotenv0 environ0 : gmap string string,
       environ0 !! "OPENAI_API_KEY" = None →
       dotenv0 !! "OPENAI_API_KEY" = None →
       client (import_module dotenv0 environ0) = None
       ∧ run (chat p (client (import_module dotenv0 environ0)) req) w
         = run (chat p (client (import_module dotenv environ)) req) w).
Proof.
  intros Hset.
  assert (client (import_module dotenv environ) = None) as Hclient.
  { unfold import_module, load_dotenv, os_getenv. simpl.
    by rewrite (lookup_union_Some_l _ _ _ _ Hset). }
  split_and!; [done | rewrite Hclient; by destruct p |].
  intros dotenv0 environ0 Henv Hdot.
  assert (client (import_module dotenv0 environ0) = None) as Hclient0.
  { unfold import_module, load_dotenv, os_getenv. simpl.
    assert ((environ0 ∪ dotenv0) !! "OPENAI_API_KEY" = None) as ->; [|done].
    by apply lookup_union_None. }
  by rewrite Hclient, Hclient0.
Qed.

Lemma angel_system_has_no_injection t :
  ¬ Text.Substring (injection_suffix t) angel_system.
Proof.
  intros H. unfold injection_suffix in H.
  apply TextFacts.Substring_app_l, TextFacts.contains_spec in H.
  by vm_compute in H.
Qed.

(** C2 (amended).  The Angel's system prompt contains the injection suffix
    if and only if reading the Response Store returns a text that is not
    empty; then the prompt is the template followed by the suffix around
    that text, which it contains verbatim; when the read returns [None] the
    prompt is the template alone.  (The read returns, and a prompt is
    composed, when the existence check of the read does not raise.) *)
Theorem angel_injection (c : OpenAI) (req : ChatRequest) (w : World) :
  io_error w (Path_exists (store_path w)) = None →
  ∃ prompt,
    sent_messages (trace (chat_angel (Some c) req) w) = [persona_messages prompt Angel req]
    ∧ ((∃ t, Text.Substring (injection_suffix t) prompt)
       ↔ ∃ text, read_result w = Some text ∧ text ≠ "")
    ∧ (∀ text, read_result w = Some text → text ≠ "" →
         prompt = angel_system +:+ injection_suffix text
         ∧ Text.Substring text prompt)
    ∧ (read_result w = None → prompt = angel_system).
Proof.
  intros Hcheck.
  destruct (run_chat Angel c req w (λ _, Hcheck)) as (tr & Hrun & Htr & _).
  unfold chat in Hrun. cbn beta iota zeta in Hrun.
  exists (angel_system_prompt (read_result w)). split.
  { unfold trace. rewrite Hrun. simpl. by rewrite sent_messages_app, Htr. }
  destruct (read_result w) as [[|a text]|]; simpl.
  - split_and!; [|by intros ? [= <-] | done].
    split; [intros [t Ht]; by apply angel_system_has_no_injection in Ht|].
    intros (text & [= <-] & Hne). done.
  - split_and!; [| |done].
    + split; [intros _; by eexists|intros _].
      exists (String a text), angel_system, "". by rewrite TextFacts.app_nil_r.
    + intros ? [= <-] _. split; [done|].
      exists (angel_system +:+ injection_head), injection_tail.
      unfold angel_system_prompt, injection_suffix. simpl.
      by rewrite !TextFacts.app_assoc.
  - split_and!; [|done..].
    split; [intros [t Ht]; by apply angel_system_has_no_injection in Ht|].
    by intros (text & [=] & _).
Qed.

Lemma run_submit_questions q1 q2 q3 q4 w :
  let p := store_path w in
  let data := responses_content q1 q2 q3 q4 in
  run (submit_questions q1 q2 q3 q4) w =
  match io_error w (path_mkdir (Text.parent p)) with
  | Some e => (raises (storage_failure e), w, path_exists "/tmp" :: take 1 (write_ops p data))
  | None =>
      match io_error w (open_w p) with
      | Some e =>
          (raises (storage_failure e), with_dirs ({[ Text.parent p ]} ∪ dirs w) w,
           path_exists "/tmp" :: take 2 (write_ops p data))
      | None =>
          match io_error w (file_write p data) with
          | Some e =>
              (raises (storage_failure e),
               saved_world p (Text.take (short_write w) data) w,
               path_exists "/tmp" :: take 3 (write_ops p data))
          | None =>
              (returns HTMLResponse_saved, saved_world p data w,
               path_exists "/tmp" :: write_ops p data)
          end
      end
  end.
Proof.
  intros p data. unfold submit_questions.
  rewrite run_bind, run_get_path. fold p. rewrite run_try_except. fold data.
  unfold saved_world, write_ops.
  destruct (io_error w (path_mkdir (Text.parent p))) eqn:Hm; [by io_simpl; rewrite Hm|].
  destruct (io_error w (open_w p)) eqn:Ho; [by io_simpl; rewrite Hm; io_simpl; rewrite Ho|].
  destruct (io_error w (file_write p data)) eqn:Hw;
    io_simpl; rewrite Hm; io_simpl; rewrite Ho; io_simpl; rewrite Hw; io_simpl;
    rewrite ?lookup_insert_eq, ?insert_insert_eq; simpl;
    by rewrite ?TextFacts.written_over_empty.
Qed.

Lemma run_read_failure w i op e :
  is_Some (files w !! store_path w) →
  io_error w (Path_exists (store_path w)) = None →
  first_failure w (read_ops (store_path w)) i op e →
  run read_student_responses w =
    (returns None, w,
     [path_exists "/tmp"; Path_exists (store_path w)] ++ take (S i) (read_ops (store_path w))).
Proof.
  intros [text Htext] Hcheck (Hop & He & Hbefore).
  unfold read_student_responses. rewrite run_bind, run_get_path.
  set (p := store_path w) in *.
  assert (path_present w p = true) as Hp.
  { unfold path_present.
    rewrite Htext, (bool_decide_eq_true_2 (is_Some (Some text))); [|by eexists].
    apply orb_true_r. }
  destruct i as [|[|i]]; simpl in Hop; [| |done]; injection Hop as <-.
  - repeat (io_simpl; rewrite ?Hcheck, ?Hp, ?He). reflexivity.
  - assert (io_error w (open_r p) = None) as Ho.
    { apply Hbefore. simpl. set_solver. }
    repeat (io_simpl; rewrite ?Hcheck, ?Hp, ?He, ?Ho, ?Htext). reflexivity.
Qed.

(** C4 (amended).  When a primitive of the write (creating the directory,
    opening the file, writing it) is the first to fail, [submit_questions]
    raises a 500 error whose detail contains the cause, and the trace ends
    with that primitive, performed once.  Of a read, the existence check
    sits outside the [try]: when it fails, [read_student_responses] raises,
    and the Angel's handler answers with a 500 error whose detail contains
    the cause, after that one attempt and without calling the provider.
    Opening the file and reading it sit inside the [try]: when one of them
    fails the failure is not surfaced, [read_student_responses] returns
    [None] after that one attempt, and the Angel's handler goes on to ask
    the provider with its template alone. *)
Theorem storage_failure_handling (q1 q2 q3 q4 : string) (c : OpenAI) (req : ChatRequest)
    (w : World) (i : nat) (op : Op) (e : string) :
  let p := store_path w in
  let data := responses_content q1 q2 q3 q4 in
  (first_failure w (write_ops p data) i op e →
     outcome (submit_questions q1 q2 q3 q4) w = raises (storage_failure e)
     ∧ Text.Substring e (detail (storage_failure e))
     ∧ trace (submit_questions q1 q2 q3 q4) w
       = path_exists "/tmp" :: take (S i) (write_ops p data))
  ∧ (io_error w (Path_exists p) = Some e →
     run read_student_responses w
       = (raises {| str := e |}, w, [path_exists "/tmp"; Path_exists p])
     ∧ run (chat_angel (Some c) req) w
       = (raises {| status_code := 500; detail := "Error calling OpenAI API: " +:+ e |},
          w, [path_exists "/tmp"; Path_exists p])
     ∧ Text.Substring e ("Error calling OpenAI API: " +:+ e))
  ∧ (is_Some (files w !! p) → io_error w (Path_exists p) = None →
     first_failure w (read_ops p) i op e →
     run read_student_responses w
       = (returns None, w, [path_exists "/tmp"; Path_exists p] ++ take (S i) (read_ops p))
     ∧ outcome (chat_angel (Some c) req) w
       = reply_outcome (provider w c model_id (persona_messages angel_system Angel req))).
Proof.
  intros p data. split_and!.
  - intros (Hop & He & Hbefore).
    assert (Text.Substring e (detail (storage_failure e))) as Hsub.
    { exists "Error saving responses: ", "". simpl. by rewrite TextFacts.app_nil_r. }
    unfold outcome, trace. rewrite run_submit_questions. fold p data.
    destruct i as [|[|[|i]]]; simpl in Hop; [| | |done]; injection Hop as <-.
    + by rewrite He.
    + rewrite (Hbefore (path_mkdir (Text.parent p))), He; [done|]. simpl. set_solver.
    + rewrite (Hbefore (path_mkdir (Text.parent p))), (Hbefore (open_w p)), He;
        [done|simpl; set_solver..].
  - intros He. split_and!.
    + by apply run_read_raises.
    + by apply run_chat_angel_raises.
    + exists "Error calling OpenAI API: ", "". by rewrite TextFacts.app_nil_r.
  - intros Hfile Hcheck Hfail.
    pose proof (run_read_failure w i op e Hfile Hcheck Hfail) as Hread.
    split; [done|].
    destruct (run_chat Angel c req w (λ _, Hcheck)) as (tr & Hrun & _).
    unfold chat in Hrun. cbn beta iota zeta in Hrun.
    destruct (run_read w Hcheck) as (tr' & Hrun' & _).
    rewrite Hread in Hrun'. injection Hrun' as Hnone _.
    unfold outcome. rewrite Hrun. simpl. by rewrite <- Hnone.
Qed.

Lemma responses_content_layout q1 q2 q3 q4 :
  responses_content q1 q2 q3 q4 = labeled_layout [q1; q2; q3; q4].
Proof.
  unfold responses_content, labeled_layout. simpl.
  by rewrite !TextFacts.app_assoc.
Qed.

Lemma responses_content_no_cr q1 q2 q3 q4 :
  Text.has_cr q1 = false → Text.has_cr q2 = false →
  Text.has_cr q3 = false → Text.has_cr q4 = false →
  Text.has_cr (responses_content q1 q2 q3 q4) = false.
Proof.
  intros H1 H2 H3 H4. unfold responses_content.
  rewrite !TextFacts.has_cr_app, H1, H2, H3, H4. reflexivity.
Qed.

Lemma responses_content_valid q1 q2 q3 q4 :
  Text.utf8_valid q1 = true → Text.utf8_valid q2 = true →
  Text.utf8_valid q3 = true → Text.utf8_valid q4 = true →
  Text.utf8_valid (responses_content q1 q2 q3 q4) = true.
Proof.
  intros H1 H2 H3 H4. unfold responses_content.
  by repeat (rewrite TextFacts.utf8_valid_app; [|done]).
Qed.

Lemma store_path_not_tmp w : store_path w ≠ "/tmp".
Proof. rewrite store_path_eq. by destruct (path_present w "/tmp"). Qed.

Lemma store_path_saved data w :
  store_path (saved_world (store_path w) data w) = store_path w.
Proof.
  rewrite !store_path_eq.
  destruct (path_present w "/tmp") eqn:Htmp; unfold path_present in *; simpl.
  - change (Text.parent "/tmp/student_responses.txt") with "/tmp".
    assert (bool_decide ("/tmp" ∈ ({["/tmp"]} ∪ dirs w : gset string)) = true) as ->; [|done].
    apply bool_decide_eq_true_2. set_solver.
  - apply orb_false_elim in Htmp as [Hd Hf].
    apply bool_decide_eq_false_1 in Hd. 
    change (Text.parent "student_responses.txt") with ".".
    rewrite lookup_insert_ne, Hf; [|done].
    assert (bool_decide ("/tmp" ∈ ({["."]} ∪ dirs w : gset string)) = false) as ->; [|done].
    apply bool_decide_eq_false_2.
    rewrite elem_of_union, elem_of_singleton. by intros [?|?].
Qed.

(** C1 (amended).  After a submission that was saved, of answers that are
    texts (Python strings: their bytes are the UTF-8 encoding of
    characters), a read that meets no I/O failure returns the labeled
    layout as text mode reads it, with each pair of a carriage return and
    a line feed, and each lone carriage return, turned into one line feed.
    When no answer contains a carriage return, this is the layout itself:
    the four labels verbatim and in order, each followed on the next line
    by its answer verbatim, with a blank line between the blocks. *)
Theorem write_then_read (q1 q2 q3 q4 : string) (w : World) (resp : Response) :
  Text.utf8_valid q1 = true → Text.utf8_valid q2 = true →
  Text.utf8_valid q3 = true → Text.utf8_valid q4 = true →
  outcome (submit_questions q1 q2 q3 q4) w = returns resp →
  let w' := world_after (submit_questions q1 q2 q3 q4) w in
  io_error w' (Path_exists (store_path w')) = None →
  io_error w' (open_r (store_path w')) = None →
  io_error w' (file_read (store_path w')) = None →
  read_result w' = Some (Text.universal_newlines (labeled_layout [q1; q2; q3; q4]))
  ∧ (Text.has_cr q1 = false → Text.has_cr q2 = false →
     Text.has_cr q3 = false → Text.has_cr q4 = false →
     read_result w' = Some (labeled_layout [q1; q2; q3; q4])).
Proof.
  intros Hv1 Hv2 Hv3 Hv4.
  pose proof (responses_content_valid q1 q2 q3 q4 Hv1 Hv2 Hv3 Hv4) as Hvalid.
  unfold outcome, world_after. rewrite run_submit_questions.
  set (p := store_path w). set (data := responses_content q1 q2 q3 q4) in *.
  destruct (io_error w (path_mkdir _)); [done|].
  destruct (io_error w (open_w p)); [done|].
  destruct (io_error w (file_write p data)); [done|].
  intros _. cbn [fst snd]. unfold p. rewrite store_path_saved. fold p.
  change (io_error (saved_world p data w)) with (io_error w).
  intros Hcheck Ho Hr.
  assert (read_result (saved_world p data w) = Some (Text.universal_newlines data)) as Hread.
  { rewrite read_result_eq. unfold p. rewrite store_path_saved. fold p.
    change (io_error (saved_world p data w)) with (io_error w).
    rewrite Hcheck, Ho, Hr. unfold path_present.
    change (files (saved_world p data w)) with (<[p:=data]> (files w)).
    rewrite lookup_insert_eq.
    rewrite (bool_decide_eq_true_2 (is_Some (Some data))); [|by eexists].
    rewrite orb_true_r. by apply TextFacts.decoded_valid. }
  unfold data in *. rewrite responses_content_layout in *.
  split; [done|]. intros H1 H2 H3 H4.
  rewrite Hread, <- responses_content_layout.
  by rewrite TextFacts.universal_newlines_id; [|apply responses_content_no_cr].
Qed.

Lemma step_one_call {E A} op (k : result_of op → Prog E A) w :
  one_call op = true → step (Do op k) w = (k (exec op w).1, (exec op w).2).
Proof.
  destruct op; intros H; try discriminate H; unfold step; by destruct (exec _ w).
Qed.

Lemma steps_0 {E A} (t : Prog E A) w : steps 0 t w = (t, w).
Proof. reflexivity. Qed.

Lemma steps_Do {E A} n op (k : result_of op → Prog E A) w :
  one_call op = true →
  steps (S n) (Do op k) w = steps n (k (exec op w).1) (exec op w).2.
Proof.
  intros H. unfold steps. rewrite Nat.iter_succ_r. cbn [fst snd].
  by rewrite step_one_call.
Qed.

Lemma steps_Ret {E A} n (a : A) w : steps n (@Ret E A a) w = (Ret a, w).
Proof. induction n as [|n IH]; [done|]. unfold steps in *. simpl. by rewrite IH. Qed.

Lemma steps_Raise {E A} n (e : E) w : steps n (@Raise E A e) w = (Raise e, w).
Proof. induction n as [|n IH]; [done|]. unfold steps in *. simpl. by rewrite IH. Qed.

Lemma steps_get_path {E A} n (k : string → Prog E A) w :
  steps (S n) (bind get_student_responses_path k) w = steps n (k (store_path w)) w.
Proof.
  unfold get_student_responses_path. simpl bind. rewrite steps_Do by done.
  rewrite store_path_eq. simpl. by destruct (path_present w "/tmp").
Qed.

Lemma path_present_tmp_mkdir w :
  path_present (with_dirs ({[ Text.parent (store_path w) ]} ∪ dirs w) w) "/tmp"
  = path_present w "/tmp".
Proof.
  rewrite store_path_eq. unfold path_present. simpl.
  destruct (bool_decide ("/tmp" ∈ dirs w)) eqn:Hd.
  - apply bool_decide_eq_true_1 in Hd. simpl.
    rewrite bool_decide_eq_true_2; [done|]. apply elem_of_union. by right.
  - apply bool_decide_eq_false_1 in Hd. simpl.
    destruct (bool_decide (is_Some (files w !! "/tmp"))) eqn:Hf.
    + by rewrite orb_true_r.
    + rewrite orb_false_r. apply bool_decide_eq_false_2.
      change (Text.parent "student_responses.txt") with ".".
      rewrite elem_of_union, elem_of_singleton. by intros [?|?].
Qed.

Lemma stage_le_refl s : stage_le s s = true.
Proof. by destruct s. Qed.

Lemma stage_le_trans s1 s2 s3 :
  stage_le s1 s2 = true → stage_le s2 s3 = true → stage_le s1 s3 = true.
Proof. by destruct s1, s2, s3. Qed.

Lemma stage_le_S i : stage_le (stage i) (stage (S i)) = true.
Proof. by destruct i as [|[|[|[|i]]]]. Qed.

Lemma at_stage_start w0 data : at_stage w0 data Before w0.
Proof. by unfold at_stage. Qed.

Lemma returns_within_Ret {E A} w0 data (P : A → Prop) n s (a : A) :
  returns_within w0 data P n s (@Ret E A a) = P a.
Proof. by destruct n. Qed.

Lemma returns_within_later {E A} w0 data (P : A → Prop) n s s1 (t : Prog E A) :
  stage_le s s1 = true →
  returns_within w0 data P n s t → returns_within w0 data P n s1 t.
Proof.
  intros Hle. destruct t as [a|e|op k]; [by destruct n..|].
  destruct n; [done|]. intros H s' wc Hs' Hwc.
  apply (H s' wc); eauto using stage_le_trans.
Qed.

Lemma interleave_first {E1 A1 E2 A2} sched (t1 : Prog E1 A1) (t2 : Prog E2 A2) w :
  interleave (true :: sched) t1 t2 w = interleave sched (step t1 w).1 t2 (step t1 w).2.
Proof. cbn [interleave]. by destruct (step t1 w). Qed.

Lemma interleave_second {E1 A1 E2 A2} sched (t1 : Prog E1 A1) (t2 : Prog E2 A2) w :
  interleave (false :: sched) t1 t2 w = interleave sched t1 (step t2 w).1 (step t2 w).2.
Proof. cbn [interleave]. by destruct (step t2 w). Qed.

Section Writer.

#[local] Arguments steps : simpl never.

Variables (q1 q2 q3 q4 : string) (w0 : World).
Hypothesis no_failure : ∀ op, io_error w0 op = None.

Abbreviation p := (store_path w0).
Abbreviation data := (responses_content q1 q2 q3 q4).

Lemma writer_step i wc :
  io_error wc = io_error w0 →
  path_present wc "/tmp" = path_present w0 "/tmp" →
  step (steps i (submit_questions q1 q2 q3 q4) w0).1 wc
  = ((steps (S i) (submit_questions q1 q2 q3 q4) w0).1, writer_effect i p data wc).
Proof.
  intros Hio Htmp. unfold submit_questions.
  destruct i as [|i].
  { rewrite steps_get_path, !steps_0. unfold get_student_responses_path. simpl.
    rewrite Htmp, store_path_eq.
    by destruct (path_present w0 "/tmp"). }
  rewrite !steps_get_path. simpl try_except.
  destruct i as [|i].
  { rewrite steps_Do by done. rewrite !steps_0. io_simpl. by rewrite Hio, !no_failure. }
  rewrite !steps_Do by done. io_simpl. rewrite !no_failure. simpl.
  destruct i as [|i].
  { rewrite steps_Do by done. rewrite !steps_0. io_simpl. by rewrite Hio, !no_failure. }
  rewrite !steps_Do by done. io_simpl. rewrite !no_failure. simpl.
  destruct i as [|i].
  { rewrite steps_Do by done. rewrite !steps_0. io_simpl. by rewrite Hio, !no_failure. }
  rewrite !steps_Do by done. io_simpl. rewrite !no_failure. simpl.
  rewrite !steps_Ret. by destruct i as [|[|[|]]].
Qed.

Lemma writer_finished i r :
  (steps i (submit_questions q1 q2 q3 q4) w0).1 = Ret r → stage i = Done.
Proof.
  unfold submit_questions.
  destruct i as [|i]; [done|]. rewrite steps_get_path. simpl try_except.
  destruct i as [|i]; [done|].
  rewrite steps_Do by done. io_simpl. rewrite !no_failure. simpl.
  destruct i as [|i]; [done|]. rewrite steps_Do by done. io_simpl. rewrite !no_failure. simpl.
  destruct i as [|i]; [done|]. done.
Qed.

Lemma writer_effect_outside i d wc :
  io_error wc = io_error w0 →
  path_present wc "/tmp" = path_present w0 "/tmp" →
  io_error (writer_effect i p d wc) = io_error w0
  ∧ path_present (writer_effect i p d wc) "/tmp" = path_present w0 "/tmp".
Proof.
  intros Hio Htmp.
  assert (store_path wc = store_path w0) as Hp.
  { by rewrite !store_path_eq, Htmp. }
  destruct i as [|[|[|[|i]]]]; simpl; split; try done.
  - by rewrite <- Hp, path_present_tmp_mkdir.
  - rewrite <- Htmp. unfold path_present. simpl.
    rewrite lookup_insert_ne; [done|]. rewrite <- Hp. apply store_path_not_tmp.
  - rewrite <- Htmp. unfold path_present. simpl.
    rewrite lookup_insert_ne; [done|]. rewrite <- Hp. apply store_path_not_tmp.
Qed.

Lemma writer_keeps_at_stage i wc :
  at_stage w0 data (stage i) wc → at_stage w0 data (stage (S i)) (writer_effect i p data wc).
Proof.
  intros (Hio & Htmp & Hp & Hc).
  destruct (writer_effect_outside i data wc Hio Htmp) as [Hio' Htmp'].
  split_and!; [done..| |].
  - intros H. specialize (Hp H).
    destruct i as [|[|[|[|i]]]]; simpl; try done; unfold path_present in *; simpl.
    + apply orb_true_iff in Hp as [Hp|Hp]; apply orb_true_iff; [left|by right].
      apply bool_decide_eq_true_1 in Hp. apply bool_decide_eq_true_2.
      apply elem_of_union. by right.
    + apply orb_true_iff. right. apply bool_decide_eq_true_2.
      rewrite lookup_insert_eq. by eexists.
    + apply orb_true_iff. right. apply bool_decide_eq_true_2.
      rewrite lookup_insert_eq. by eexists.
  - destruct i as [|[|[|[|i]]]]; simpl in *; try done.
    + by rewrite lookup_insert_eq.
    + rewrite lookup_insert_eq. unfold file_text. rewrite Hc. simpl.
      by rewrite TextFacts.written_over_empty.
Qed.

(** One step of a request beside the submission. *)
Lemma reader_step {A} (P : A → Prop) n s (t : Prog PyException A) wc :
  at_stage w0 data s wc → returns_within w0 data P n s t →
  (step t wc).2 = wc ∧ returns_within w0 data P (pred n) s (step t wc).1.
Proof.
  intros Hwc Ht. destruct t as [a|e|op k].
  - split; [done|]. cbn [step fst]. by rewrite returns_within_Ret in *.
  - by destruct n.
  - destruct n; [done|]. apply (Ht s wc); [apply stage_le_refl|done].
Qed.

Lemma interleave_reader {A} (P : A → Prop) sched :
  ∀ i n (tr : Prog PyException A) wc,
    at_stage w0 data (stage i) wc → returns_within w0 data P n (stage i) tr →
    (n ≤ second_turns sched →
     ∃ r, (interleave sched (steps i (submit_questions q1 q2 q3 q4) w0).1 tr wc).1.2 = Ret r)
    ∧ (∀ r,
         (interleave sched (steps i (submit_questions q1 q2 q3 q4) w0).1 tr wc).1.2 = Ret r →
         P r).
Proof.
  induction sched as [|[] sched IH]; intros i n tr wc Hwc Htr.
  - cbn [interleave fst snd second_turns]. split.
    + intros Hn. assert (n = 0) as -> by lia. destruct tr; [by eexists|done..].
    + intros r ->. by rewrite returns_within_Ret in Htr.
  - rewrite interleave_first, (writer_step i wc); [|apply Hwc..].
    cbn [fst snd second_turns]. apply (IH (S i) n); [by apply writer_keeps_at_stage|].
    by apply (returns_within_later _ _ _ _ (stage i)); [apply stage_le_S|].
  - rewrite interleave_second.
    destruct (reader_step P n (stage i) tr wc Hwc Htr) as [-> Hr].
    cbn [second_turns]. destruct (IH i (pred n) _ wc Hwc Hr) as [Hends Hin].
    split; [|done]. intros Hn. apply Hends. lia.
Qed.

End Writer.

Section ReadBesideSubmission.

Variables (w0 : World) (d : string).
Hypothesis no_failure : ∀ op, io_error w0 op = None.

Abbreviation P := (read_during_write d w0).

(** What [read_student_responses] does with the end of its [f.read()]. *)
Abbreviation after_read :=
  (λ r : PyResult string,
     try_except (text <- raising r; Ret (Some text)) (λ _, Ret None)
     : Prog PyException (option string)).

Lemma after_read_text bytes : after_read (read_text bytes) = Ret (Text.decoded bytes).
Proof. unfold read_text. by destruct (Text.decoded bytes). Qed.

Lemma file_text_at_stage s wc :
  at_stage w0 d s wc →
  file_text wc (store_path w0) = default "" (store_at (files w0 !! store_path w0) d s).
Proof. intros (_ & _ & _ & Hc). unfold file_text. by rewrite Hc. Qed.

(** A [f.read()] that has read [acc], when the file has nothing beyond
    it from now on, ends at its next [read()] call. *)
Lemma reading_ends n s acc :
  P (Text.decoded acc) →
  (∀ s' wc, stage_le s s' = true → at_stage w0 d s' wc →
     Text.drop (String.length acc) (file_text wc (store_path w0)) = "") →
  returns_within w0 d P (S n) s (Do (file_read_more (store_path w0) acc) after_read).
Proof.
  intros HP Hend s' wc Hs' Hwc. cbn [step]. unfold read_call.
  rewrite (Hend s' wc Hs' Hwc), after_read_text. cbn [fst snd].
  split; [done|]. by rewrite returns_within_Ret.
Qed.

Lemma read_result_old old :
  files w0 !! store_path w0 = Some old → read_result w0 = Text.decoded old.
Proof.
  intros Hold. rewrite read_result_eq, !no_failure, Hold.
  unfold path_present. rewrite Hold.
  rewrite (bool_decide_eq_true_2 (is_Some (Some old))); [|by eexists].
  by rewrite orb_true_r.
Qed.

(** The [f.read()] of the store file, begun at stage [s]: at most three
    [read()] calls. *)
Lemma reading_beside_submission s :
  returns_within w0 d P 3 s (Do (file_read (store_path w0)) after_read).
Proof.
  intros s1 w1 _ H1. cbn [step].
  assert (io_error w1 = io_error w0) as -> by apply H1.
  rewrite no_failure. unfold read_call.
  change (String.length "") with 0. cbn [Text.drop].
  rewrite (file_text_at_stage s1 w1 H1).
  destruct (default "" (store_at (files w0 !! store_path w0) d s1)) as [|c chunk] eqn:Hfirst.
  { rewrite after_read_text. cbn [fst snd]. split; [done|]. rewrite returns_within_Ret. right. by left. }
  cbn [fst snd]. split; [done|]. rewrite TextFacts.app_nil_l.
  destruct s1; simpl in Hfirst.
  - (* the old record was read first *)
    destruct (files w0 !! store_path w0) as [old|] eqn:Hold; [|done].
    simpl in Hfirst. subst old.
    pose proof (read_result_old _ Hold) as Hread.
    intros s2 w2 _ H2. cbn [step]. unfold read_call.
    rewrite (file_text_at_stage s2 w2 H2), Hold.
    destruct s2; cbn [store_at default from_option id].
    + rewrite TextFacts.drop_all by done. rewrite after_read_text. cbn [fst snd].
      split; [done|]. rewrite returns_within_Ret. by left.
    + rewrite TextFacts.drop_nil, after_read_text. cbn [fst snd].
      split; [done|]. rewrite returns_within_Ret. by left.
    + destruct (Text.drop (String.length (String c chunk)) d) as [|c' tail] eqn:Htail.
      { rewrite after_read_text. cbn [fst snd]. split; [done|]. rewrite returns_within_Ret. by left. }
      cbn [fst snd]. split; [done|]. apply reading_ends.
      * do 3 right. exists (String c chunk). split; [done|]. by rewrite Htail.
      * intros s3 w3 Hs3 H3. rewrite (file_text_at_stage s3 w3 H3).
        destruct s3; try done. cbn [store_at default from_option id].
        rewrite <- Htail. apply TextFacts.drop_past.
  - done.
  - (* the new record was read first *)
    rewrite <- Hfirst. apply reading_ends.
    + right. right. by left.
    + intros s3 w3 Hs3 H3. rewrite (file_text_at_stage s3 w3 H3).
      destruct s3; try done. cbn [store_at default from_option id].
      by apply TextFacts.drop_all.
Qed.

(** A read begun before the submission returns within six steps. *)
Lemma read_beside_submission :
  returns_within w0 d P 6 Before read_student_responses.
Proof.
  unfold read_student_responses, get_student_responses_path. simpl bind.
  intros s1 w1 _ H1. rewrite step_one_call by done. cbn [exec fst snd].
  split; [done|].
  assert (path_present w1 "/tmp" = path_present w0 "/tmp") as -> by apply H1.
  assert (∀ (b : bool) (f : string → Prog PyException (option string)) x y,
            bind (if b then Ret x else Ret y) f = f (if b then x else y)) as Hif.
  { by intros []. }
  rewrite Hif, <- store_path_eq. simpl bind.
  intros s2 w2 _ H2. rewrite step_one_call by done. cbn [exec]. unfold unless_io_error.
  assert (io_error w2 = io_error w0) as -> by apply H2.
  rewrite no_failure. cbn [fst snd raising bind]. split; [done|].
  destruct (path_present w2 (store_path w0)) eqn:Hthere.
  2: { rewrite returns_within_Ret. left. rewrite read_result_eq, no_failure.
       destruct (path_present w0 (store_path w0)) eqn:H0; [|done].
       destruct H2 as (_ & _ & Hp & _). by rewrite Hp in Hthere. }
  simpl try_except.
  intros s3 w3 _ H3. rewrite step_one_call by done. cbn [exec]. unfold unless_io_error.
  assert (io_error w3 = io_error w0) as -> by apply H3.
  rewrite no_failure. cbn [fst snd]. split; [done|].
  destruct (files w3 !! store_path w0) as [text|] eqn:Htext; cbn [raising bind try_except].
  2: { rewrite returns_within_Ret. left.
       destruct H3 as (_ & _ & _ & Hc). rewrite Htext in Hc.
       destruct s3; try done. simpl in Hc.
       by rewrite read_result_eq, no_failure, <- Hc, !no_failure;
         destruct (path_present w0 (store_path w0)). }
  apply reading_beside_submission.
Qed.

End ReadBesideSubmission.


(** ** The claims at concrete inputs *)

(** C1 as stated fails: an answer typed on two lines is stored with its
    carriage return and read back without it, so that the text read is not
    the layout around the answer, and does not contain the answer verbatim. *)
Lemma write_then_read_two_line_answer :
  outcome (submit_questions two_line_answer "asked a friend" "raised hand twice" "3") fresh_world
    = returns HTMLResponse_saved
  ∧ read_result
      (world_after (submit_questions two_line_answer "asked a friend" "raised hand twice" "3")
         fresh_world)
    = Some (labeled_layout ["line one" +:+ LF +:+ "line two"; "asked a friend";
                            "raised hand twice"; "3"])
  ∧ read_result
      (world_after (submit_questions two_line_answer "asked a friend" "raised hand twice" "3")
         fresh_world)
    ≠ Some (labeled_layout [two_line_answer; "asked a friend"; "raised hand twice"; "3"])
  ∧ Text.contains two_line_answer
      (labeled_layout ["line one" +:+ LF +:+ "line two"; "asked a friend";
                       "raised hand twice"; "3"]) = false.
Proof.
  split_and!; [by vm_compute | by vm_compute | | by vm_compute].
  intros H. vm_compute in H. discriminate H.
Qed.

Lemma write_then_read_witness :
  read_result
    (world_after (submit_questions "Did it late" "asked a friend" "raised hand twice" "3")
       fresh_world)
  = Some (labeled_layout ["Did it late"; "asked a friend"; "raised hand twice"; "3"]).
Proof.
  apply (write_then_read "Did it late" "asked a friend" "raised hand twice" "3"
           fresh_world HTMLResponse_saved); reflexivity.
Defined.

(** C2 as stated fails: a submission that could open the store file and not
    write it leaves the file empty; the read then returns a text (the
    empty one, not [None]) and the prompt carries no injection suffix. *)
Lemma empty_record_present_without_injection :
  files empty_record_world !! "/tmp/student_responses.txt" = Some ""
  ∧ read_result empty_record_world = Some ""
  ∧ sent_messages (trace (chat_angel (Some test_client) hi) empty_record_world)
    = [persona_messages angel_system Angel hi]
  ∧ ¬ ∃ t, Text.Substring (injection_suffix t) angel_system.
Proof.
  split_and!; [by vm_compute | by vm_compute | by vm_compute |].
  intros [t Ht]. by apply angel_system_has_no_injection in Ht.
Qed.


(** Two submissions in flight at once: each writer starts at offset 0 of
    the same file, and the shorter text written last leaves the end of
    the longer one behind it. *)
Example overlapping_writes_mix :
  file_text
    (interleave open_open_write_write
       (submit_questions "old one" "old two" "old three" "1")
       (submit_questions "a" "b" "c" "2") fresh_world).2
    "/tmp/student_responses.txt"
  = responses_content "a" "b" "c" "2" +:+ "n the assignment?" +:+ LF +:+ "1" +:+ LF.
Proof. by vm_compute. Qed.

(** A read whose [read()] calls fall on both sides of the submission
    returns the old record followed by the end of the new one: a text that
    is neither of the two. *)
Example read_around_write_mixes :
  (interleave read_around_write
     (submit_questions "Did it late" "asked a friend" "raised hand twice" "3")
     read_student_responses old_world).1.2
  = Ret (Some (responses_content "old one" "old two" "old three" "1"
               +:+ " the assignment?" +:+ LF +:+ "3" +:+ LF))
  ∧ read_result old_world = Some (responses_content "old one" "old two" "old three" "1")
  ∧ Text.drop (String.length (responses_content "old one" "old two" "old three" "1"))
      (responses_content "Did it late" "asked a friend" "raised hand twice" "3")
    = " the assignment?" +:+ LF +:+ "3" +:+ LF.
Proof. split_and!; by vm_compute. Qed.

(** The same read, when the old record ends inside a character of the
    new one: what was read is no text, the decoding error is caught and
    the read returns nothing, although the file held a record
    throughout. *)
Example read_around_write_undecodable :
  (interleave read_around_write
     (submit_questions "old one" "old two" "old three" "1é")
     read_student_responses old_world).1.2
  = Ret None
  ∧ Text.decoded (responses_content "old one" "old two" "old three" "1é")
    = Some (responses_content "old one" "old two" "old three" "1é")
  ∧ Text.decoded
      (responses_content "old one" "old two" "old three" "1"
       +:+ Text.drop (String.length (responses_content "old one" "old two" "old three" "1"))
             (responses_content "old one" "old two" "old three" "1é"))
    = None.
Proof. split_and!; by vm_compute. Qed.


(** C4 as stated fails: opening the store file for reading is refused, and
    the Angel's handler answers with the provider's reply, not with a 500
    error. *)
Lemma read_failure_not_surfaced :
  (exec (open_r "/tmp/student_responses.txt") unreadable_world).1
    = Raised {| str := "[Errno 13] Permission denied: '/tmp/student_responses.txt'" |}
  ∧ outcome read_student_responses unreadable_world = returns None
  ∧ outcome (chat_angel (Some test_client) hi) unreadable_world
    = returns (reply_json (Some "ok")).
Proof. split_and!; by vm_compute. Qed.

Lemma storage_failure_handling_witness :
  (outcome (submit_questions "a" "b" "c" "1") read_only_world
     = raises (storage_failure
                 "[Errno 30] Read-only file system: '/tmp/student_responses.txt'")
   ∧ trace (submit_questions "a" "b" "c" "1") read_only_world
     = [path_exists "/tmp"; path_mkdir "/tmp"; open_w "/tmp/student_responses.txt"])
  ∧ (run read_student_responses unsearchable_world
     = (raises {| str := "[Errno 13] Permission denied: '/tmp/student_responses.txt'" |},
        unsearchable_world,
        [path_exists "/tmp"; Path_exists "/tmp/student_responses.txt"])
     ∧ run (chat_angel (Some test_client) hi) unsearchable_world
       = (raises {| status_code := 500;
                    detail := "Error calling OpenAI API: [Errno 13] Permission denied: '/tmp/student_responses.txt'" |},
          unsearchable_world,
          [path_exists "/tmp"; Path_exists "/tmp/student_responses.txt"]))
  ∧ (run read_student_responses unreadable_world
     = (returns None, unreadable_world,
        [path_exists "/tmp"; Path_exists "/tmp/student_responses.txt";
         open_r "/tmp/student_responses.txt"])
     ∧ outcome (chat_angel (Some test_client) hi) unreadable_world
       = reply_outcome
           (provider unreadable_world test_client model_id
              (persona_messages angel_system Angel hi))).
Proof.
  split; [|split].
  - destruct (proj1 (storage_failure_handling "a" "b" "c" "1" test_client hi
                       read_only_world 1 (open_w "/tmp/student_responses.txt")
                       "[Errno 30] Read-only file system: '/tmp/student_responses.txt'"))
      as (Hout & _ & Htrace).
    + split_and!; [reflexivity | reflexivity |].
      intros op' Hop'. apply list_elem_of_singleton in Hop'. by subst op'.
    + split; [exact Hout | exact Htrace].
  - destruct (proj1 (proj2 (storage_failure_handling "a" "b" "c" "1" test_client hi
                       unsearchable_world 0 (open_r "/tmp/student_responses.txt")
                       "[Errno 13] Permission denied: '/tmp/student_responses.txt'")))
      as (Hread & Hchat & _); [reflexivity|].
    split; [exact Hread | exact Hchat].
  - apply (proj2 (proj2 (storage_failure_handling "a" "b" "c" "1" test_client hi
                    unreadable_world 0 (open_r "/tmp/student_responses.txt")
                    "[Errno 13] Permission denied: '/tmp/student_responses.txt'"))).
    + by eexists.
    + reflexivity.
    + split_and!; [reflexivity | reflexivity |].
      intros op' Hop'. by apply elem_of_nil in Hop'.
Defined.

Lemma read_before_any_write_witness :
  ∃ tr, run read_student_responses fresh_world
        = (returns None, fresh_world, tr).
Proof. apply (read_before_any_write fresh_world); reflexivity. Defined.

Lemma credential_missing_witness :
  run (chat Angel (client (import_module ∅ ∅)) hi) fresh_world
    = (raises credential_missing, fresh_world, [])
  ∧ (∀ e, credential_missing ≠ gateway_failure e).
Proof. apply (credential_missing_before_any_call (import_module ∅ ∅)). reflexivity. Defined.

Lemma prompt_independent_of_store_witness :
  sent_messages (trace (chat Devil (Some test_client) hi) fresh_world)
    = [persona_messages (system_template Devil) Devil hi]
  ∧ sent_messages (trace (chat Devil (Some test_client) hi) fresh_world)
    = sent_messages (trace (chat Devil (Some test_client) hi) old_world)
  ∧ Forall (λ op, is_file_op op = false) (trace (chat Devil (Some test_client) hi) fresh_world).
Proof. apply (prompt_independent_of_store Devil). discriminate. Defined.

Lemma empty_credential_witness :
  client (import_module {[ "OPENAI_API_KEY" := "sk-from-dotenv" ]} {[ "OPENAI_API_KEY" := "" ]})
    = None
  ∧ run (chat Nicholas
           (client (import_module {[ "OPENAI_API_KEY" := "sk-from-dotenv" ]}
                      {[ "OPENAI_API_KEY" := "" ]})) hi) fresh_world
    = (raises credential_missing, fresh_world, []).
Proof.
  destruct (empty_credential_is_missing
              {[ "OPENAI_API_KEY" := "sk-from-dotenv" ]} {[ "OPENAI_API_KEY" := "" ]}
              Nicholas hi fresh_world) as (Hclient & Hrun & _); [reflexivity|].
  split; [exact Hclient | exact Hrun].
Defined.

Lemma empty_store_like_absent_witness :
  sent_messages (trace (chat_angel (Some test_client) hi) empty_record_world)
    = [persona_messages angel_system Angel hi]
  ∧ sent_messages (trace (chat_angel (Some test_client) hi) empty_record_world)
    = sent_messages (trace (chat_angel (Some test_client) hi) fresh_world).
Proof.
  apply (empty_store_like_absent test_client hi empty_record_world fresh_world);
    reflexivity.
Defined.

Lemma angel_injection_witness :
  ∃ prompt,
    sent_messages (trace (chat_angel (Some test_client) hi) old_world)
      = [persona_messages prompt Angel hi]
    ∧ ((∃ t, Text.Substring (injection_suffix t) prompt)
       ↔ ∃ text, read_result old_world = Some text ∧ text ≠ "")
    ∧ (∀ text, read_result old_world = Some text → text ≠ "" →
         prompt = angel_system +:+ injection_suffix text
         ∧ Text.Substring text prompt)
    ∧ (read_result old_world = None → prompt = angel_system).
Proof. apply (angel_injection test_client hi old_world). reflexivity. Defined.

Lemma assembled_message_list_witness :
  ∃ system_prompt,
    let msgs :=
      [ {| role := system; content := system_prompt |};
        {| role := user; content := (example_pair Angel).1 |};
        {| role := assistant; content := (example_pair Angel).2 |};
        {| role := user; content := message hi |} ] in
    sent_messages (trace (chat Angel (Some test_client) hi) old_world) = [msgs]
    ∧ length msgs = 4
    ∧ role <$> msgs = [system; user; assistant; user].
Proof. apply (assembled_message_list Angel test_client hi old_world). reflexivity. Defined.

(** ** Further properties of the handlers *)

Lemma read_only_path_exists p : read_only (path_exists p).
Proof. by intros w. Qed.

Lemma read_only_Path_exists p : read_only (Path_exists p).
Proof. intros w. simpl. unfold unless_io_error. by destruct (io_error w _). Qed.

Lemma read_only_open_r p : read_only (open_r p).
Proof. intros w. simpl. unfold unless_io_error. by destruct (io_error w _). Qed.

Lemma read_only_file_read p : read_only (file_read p).
Proof. intros w. simpl. unfold unless_io_error. by destruct (io_error w _). Qed.

Lemma read_only_create c m msgs : read_only (completions_create c m msgs).
Proof. by intros w. Qed.

(** The primitives of a read, in the order they are performed. *)
Lemma trace_read w :
  ∃ n, trace read_student_responses w
       = path_exists "/tmp" :: take n (Path_exists (store_path w) :: read_ops (store_path w)).
Proof.
  unfold trace, read_student_responses. rewrite run_bind, run_get_path.
  set (p := store_path w).
  destruct (io_error w (Path_exists p)) eqn:He, (io_error w (open_r p)) eqn:Ho,
    (files w !! p) eqn:Hf, (io_error w (file_read p)) eqn:Hr, (path_present w p) eqn:Hp;
    repeat (io_simpl; rewrite ?He, ?Ho, ?Hf, ?Hr, ?Hp);
    unfold read_text; try destruct (Text.decoded _);
    first [by exists 1 | by exists 2 | by exists 3].
Qed.

Lemma Forall_read_only_take n p :
  Forall read_only (take n (Path_exists p :: read_ops p)).
Proof.
  apply Forall_take. unfold read_ops. rewrite !Forall_cons. split_and!;
    [apply read_only_Path_exists | apply read_only_open_r
    | apply read_only_file_read | apply Forall_nil_2].
Qed.

Lemma read_leaves_world w : world_after read_student_responses w = w.
Proof.
  unfold world_after.
  destruct (io_error w (Path_exists (store_path w))) as [e|] eqn:He.
  - by rewrite (run_read_raises w e He).
  - destruct (run_read w He) as (tr & -> & _). done.
Qed.

(** X6.  [read_student_responses] raises in one case only: when
    [responses_path.exists()], which is called outside the [try], raises;
    the exception is then the one of that call.  In every other world it
    returns (a text or [None]).  Either way it leaves the world as it is,
    performing at most four primitives, none of which changes anything. *)
Theorem read_raises_only_at_the_check (w : World) :
  (∀ e, io_error w (Path_exists (store_path w)) = Some e →
        outcome read_student_responses w = raises {| str := e |})
  ∧ (io_error w (Path_exists (store_path w)) = None →
     ∃ r, outcome read_student_responses w = returns r)
  ∧ world_after read_student_responses w = w
  ∧ Forall read_only (trace read_student_responses w)
  ∧ length (trace read_student_responses w) ≤ 4.
Proof.
  destruct (trace_read w) as [n Htr].
  split_and!.
  - intros e He. unfold outcome. by rewrite (run_read_raises w e He).
  - intros He. destruct (run_read w He) as (tr & Hrun & _).
    exists (read_result w). unfold outcome. by rewrite Hrun.
  - apply read_leaves_world.
  - rewrite Htr. constructor; [apply read_only_path_exists | apply Forall_read_only_take].
  - rewrite Htr. simpl. rewrite length_take. simpl. lia.
Qed.

Lemma run_chat_messages p c req w :
  (p = Angel → io_error w (Path_exists (store_path w)) = None) →
  ∃ tr,
    run (chat p (Some c) req) w =
      (reply_outcome (provider w c model_id (messages_for p req w)), w,
       tr ++ [completions_create c model_id (messages_for p req w)])
    ∧ sent_messages tr = []
    ∧ Forall read_only tr.
Proof.
  intros Hcheck. destruct p.
  - exists []. split_and!; [apply run_ask | done | constructor].
  - destruct (run_read w (Hcheck eq_refl)) as (tr & Hread & Hsent).
    exists tr. split_and!; [by apply run_chat_angel | done |].
    destruct (trace_read w) as [n Htr].
    unfold trace in Htr. rewrite Hread in Htr. simpl in Htr. rewrite Htr.
    constructor; [apply read_only_path_exists | apply Forall_read_only_take].
  - exists []. split_and!; [apply run_ask | done | constructor].
Qed.

(** A chat request with a client, whatever the existence check does. *)
Lemma run_chat_cases p c req w :
  (∃ tr,
     run (chat p (Some c) req) w =
       (reply_outcome (provider w c model_id (messages_for p req w)), w,
        tr ++ [completions_create c model_id (messages_for p req w)])
     ∧ sent_messages tr = []
     ∧ Forall read_only tr)
  ∨ (∃ e, p = Angel
          ∧ run (chat p (Some c) req) w
            = (raises (gateway_failure {| str := e |}), w,
               [path_exists "/tmp"; Path_exists (store_path w)])).
Proof.
  destruct p; [left; by apply run_chat_messages | | left; by apply run_chat_messages].
  destruct (io_error w (Path_exists (store_path w))) as [e|] eqn:He.
  - right. exists e. split; [done|]. by apply run_chat_angel_raises.
  - left. by apply run_chat_messages.
Qed.

(** X1.  When [client.chat.completions.create] raises, every handler that
    has a client (and, for the Angel, whose existence check of the store
    did not raise) raises a 500 error whose detail is "Error calling
    OpenAI API: " followed by the text of the exception; the handler has
    called [create] exactly once, with the persona's message list, and the
    world is as it was.  What the client library does inside that one call
    is its own affair. *)
Theorem provider_error_surfaced (p : Persona) (c : OpenAI) (req : ChatRequest)
    (w : World) (e : PyException) :
  (p = Angel → io_error w (Path_exists (store_path w)) = None) →
  provider w c model_id (messages_for p req w) = Raised e →
  outcome (chat p (Some c) req) w
    = raises {| status_code := 500; detail := "Error calling OpenAI API: " +:+ str e |}
  ∧ sent_messages (trace (chat p (Some c) req) w) = [messages_for p req w]
  ∧ world_after (chat p (Some c) req) w = w.
Proof.
  intros Hcheck Hprov.
  destruct (run_chat_messages p c req w Hcheck) as (tr & Hrun & Hsent & _).
  unfold outcome, trace, world_after. rewrite Hrun, Hprov. simpl.
  by rewrite sent_messages_app, Hsent.
Qed.

(** X2.  When the provider answers with an empty list of choices,
    [response.choices[0]] fails and every handler (for the Angel, when the
    existence check of the store did not raise) raises the 500 error
    "Error calling OpenAI API: list index out of range", after one call. *)
Theorem no_choice_is_an_error (p : Persona) (c : OpenAI) (req : ChatRequest) (w : World) :
  (p = Angel → io_error w (Path_exists (store_path w)) = None) →
  provider w c model_id (messages_for p req w) = Returned {| choices := [] |} →
  outcome (chat p (Some c) req) w
    = raises {| status_code := 500;
                detail := "Error calling OpenAI API: list index out of range" |}
  ∧ sent_messages (trace (chat p (Some c) req) w) = [messages_for p req w].
Proof.
  intros Hcheck Hprov.
  destruct (run_chat_messages p c req w Hcheck) as (tr & Hrun & Hsent & _).
  unfold outcome, trace. rewrite Hrun, Hprov. simpl.
  by rewrite sent_messages_app, Hsent.
Qed.

(** X3.  When the provider answers with at least one choice, every handler
    (for the Angel, when the existence check of the store did not raise)
    returns the content of the first choice as it is (be it [None]),
    whatever the other choices are, after one call and leaving the world as
    it was. *)
Theorem first_choice_is_the_reply (p : Persona) (c : OpenAI) (req : ChatRequest)
    (w : World) (reply : option string) (others : list (option string)) :
  (p = Angel → io_error w (Path_exists (store_path w)) = None) →
  provider w c model_id (messages_for p req w) = Returned {| choices := reply :: others |} →
  outcome (chat p (Some c) req) w = returns (reply_json reply)
  ∧ sent_messages (trace (chat p (Some c) req) w) = [messages_for p req w]
  ∧ world_after (chat p (Some c) req) w = w.
Proof.
  intros Hcheck Hprov.
  destruct (run_chat_messages p c req w Hcheck) as (tr & Hrun & Hsent & _).
  unfold outcome, trace, world_after. rewrite Hrun, Hprov. simpl.
  by rewrite sent_messages_app, Hsent.
Qed.

(** X4.  A chat request never changes the world, with or without a client:
    none of the primitives it performs changes anything, and it calls the
    provider at most once. *)
Theorem chat_is_read_only (p : Persona) (c : option OpenAI) (req : ChatRequest) (w : World) :
  world_after (chat p c req) w = w
  ∧ Forall read_only (trace (chat p c req) w)
  ∧ length (sent_messages (trace (chat p c req) w)) ≤ 1.
Proof.
  destruct c as [c|].
  - destruct (run_chat_cases p c req w) as [(tr & Hrun & Hsent & Hro) | (e & _ & Hrun)];
      unfold world_after, trace; rewrite Hrun; simpl; (split_and!; [done| |]).
    + apply Forall_app. split; [done|]. constructor; [apply read_only_create|constructor].
    + by rewrite sent_messages_app, Hsent.
    + repeat constructor. apply read_only_Path_exists.
    + lia.
  - destruct p; (split_and!; [done | constructor | simpl; lia]).
Qed.

(** X5.  Every error a chat handler or [submit_questions] raises has the
    status code 500. *)
Theorem every_error_is_a_500 (p : Persona) (c : option OpenAI) (req : ChatRequest)
    (q1 q2 q3 q4 : string) (w : World) (x : HTTPException) :
  outcome (chat p c req) w = raises x ∨ outcome (submit_questions q1 q2 q3 q4) w = raises x →
  status_code x = 500.
Proof.
  intros [H|H].
  - destruct c as [c|]; [|destruct p; by injection H as <-].
    destruct (run_chat_cases p c req w) as [(tr & Hrun & _) | (e & _ & Hrun)];
      unfold outcome in H; rewrite Hrun in H; simpl in H; [|by injection H as <-].
    destruct (provider w c _ _) as [[[|r rest]]|e]; simpl in H; [| done |];
      by injection H as <-.
  - unfold outcome in H. rewrite run_submit_questions in H.
    destruct (io_error w (path_mkdir _)); [by injection H as <-|].
    destruct (io_error w (open_w _)); [by injection H as <-|].
    destruct (io_error w (file_write _ _)); [by injection H as <-|done].
Qed.

Lemma dirs_saved_twice (d : string) (ds : gset string) :
  {[ d ]} ∪ ({[ d ]} ∪ ds) = {[ d ]} ∪ ds.
Proof. by rewrite (assoc_L (∪)), (idemp_L (∪)). Qed.

Lemma saved_world_twice p data data' w :
  saved_world p data' (saved_world p data w) = saved_world p data' w.
Proof.
  unfold saved_world, with_files, with_dirs. simpl.
  by rewrite insert_insert_eq, dirs_saved_twice.
Qed.

Lemma read_saved data w :
  io_error w (Path_exists (store_path w)) = None →
  io_error w (open_r (store_path w)) = None →
  io_error w (file_read (store_path w)) = None →
  read_result (saved_world (store_path w) data w) = Text.decoded data.
Proof.
  intros He Ho Hr. rewrite read_result_eq, store_path_saved.
  change (io_error (saved_world (store_path w) data w)) with (io_error w).
  rewrite He, Ho, Hr. unfold path_present.
  change (files (saved_world (store_path w) data w))
    with (<[store_path w:=data]> (files w)).
  rewrite lookup_insert_eq, (bool_decide_eq_true_2 (is_Some (Some data))); [|by eexists].
  by rewrite orb_true_r.
Qed.

(** What a submission does, by the first primitive that fails. *)
Lemma submit_cases q1 q2 q3 q4 w :
  let p := store_path w in
  let data := responses_content q1 q2 q3 q4 in
  (∃ i op e, first_failure w (write_ops p data) i op e
             ∧ outcome (submit_questions q1 q2 q3 q4) w = raises (storage_failure e))
  ∨ ((∀ op, op ∈ write_ops p data → io_error w op = None)
     ∧ run (submit_questions q1 q2 q3 q4) w
       = (returns HTMLResponse_saved, saved_world p data w,
          path_exists "/tmp" :: write_ops p data)).
Proof.
  intros p data. unfold outcome. rewrite run_submit_questions. fold p data.
  destruct (io_error w (path_mkdir (Text.parent p))) as [e|] eqn:Hm.
  { left. exists 0, (path_mkdir (Text.parent p)), e. split; [|done].
    split_and!; [done..|]. by intros op' ?%elem_of_nil. }
  destruct (io_error w (open_w p)) as [e|] eqn:Ho.
  { left. exists 1, (open_w p), e. split; [|done].
    split_and!; [done..|]. intros op' Hop'.
    by apply list_elem_of_singleton in Hop' as ->. }
  destruct (io_error w (file_write p data)) as [e|] eqn:Hw.
  { left. exists 2, (file_write p data), e. split; [|done].
    split_and!; [done..|]. simpl. intros op' Hop'.
    apply elem_of_cons in Hop' as [->|Hop']; [done|].
    by apply list_elem_of_singleton in Hop' as ->. }
  right. split; [|done]. unfold write_ops. intros op Hop.
  repeat (apply elem_of_cons in Hop as [->|Hop]; [done|]). by apply elem_of_nil in Hop.
Qed.

(** X8.  [submit_questions] returns the confirmation page exactly when none
    of its three write primitives (creating the directory, opening the
    file, writing it) fails; otherwise it raises the 500 error of a storage
    failure.  The answers are not looked at. *)
Theorem submit_succeeds_iff (q1 q2 q3 q4 : string) (w : World) :
  (outcome (submit_questions q1 q2 q3 q4) w = returns HTMLResponse_saved
   ↔ ∀ op, op ∈ write_ops (store_path w) (responses_content q1 q2 q3 q4) →
           io_error w op = None)
  ∧ (outcome (submit_questions q1 q2 q3 q4) w = returns HTMLResponse_saved
     ∨ ∃ e, outcome (submit_questions q1 q2 q3 q4) w = raises (storage_failure e)).
Proof.
  destruct (submit_cases q1 q2 q3 q4 w) as [(i & op & e & (Hop & He & _) & Hout) | [Hok Hrun]].
  - split; [|right; by exists e]. rewrite Hout. split; [done|].
    intros Hnone. rewrite Hnone in He; [done|]. by apply list_elem_of_lookup_2 in Hop.
  - unfold outcome. rewrite Hrun. simpl. split; [done | by left].
Qed.

(** X9.  Of two submissions saved one after the other, nothing of the first
    is left: the second one succeeds as it would alone, the world is the one
    the second one alone would leave, and the store file holds its text. *)
Theorem no_history (a1 a2 a3 a4 b1 b2 b3 b4 : string) (w : World) :
  outcome (submit_questions a1 a2 a3 a4) w = returns HTMLResponse_saved →
  outcome (submit_questions b1 b2 b3 b4) w = returns HTMLResponse_saved →
  outcome (submit_questions b1 b2 b3 b4) (world_after (submit_questions a1 a2 a3 a4) w)
    = returns HTMLResponse_saved
  ∧ world_after (submit_questions b1 b2 b3 b4) (world_after (submit_questions a1 a2 a3 a4) w)
    = world_after (submit_questions b1 b2 b3 b4) w
  ∧ files (world_after (submit_questions b1 b2 b3 b4) w) !! store_path w
    = Some (responses_content b1 b2 b3 b4).
Proof.
  intros Ha Hb.
  destruct (submit_cases a1 a2 a3 a4 w) as [(i & op & e & _ & Hout) | [_ Hrun]];
    [by rewrite Hout in Ha|].
  destruct (submit_cases b1 b2 b3 b4 w) as [(i & op & e & _ & Hout) | [Hok Hrunb]];
    [by rewrite Hout in Hb|].
  set (wa := saved_world (store_path w) (responses_content a1 a2 a3 a4) w).
  assert (world_after (submit_questions a1 a2 a3 a4) w = wa) as ->.
  { unfold world_after. by rewrite Hrun. }
  destruct (submit_cases b1 b2 b3 b4 wa) as [(i & op & e & (Hop & He & _) & _) | [_ Hrunab]].
  { unfold wa in Hop, He. rewrite store_path_saved in Hop.
    change (io_error (saved_world _ _ w)) with (io_error w) in He.
    rewrite Hok in He; [done|]. by apply list_elem_of_lookup_2 in Hop. }
  unfold outcome, world_after. rewrite Hrunab, Hrunb. cbn [fst snd].
  unfold wa. rewrite store_path_saved, saved_world_twice. split_and!; [done..|].
  unfold saved_world. simpl. apply lookup_insert_eq.
Qed.

(** X10.  However it ends, a submission does not change where the store is:
    [get_student_responses_path] returns the same path after it as before. *)
Theorem submit_keeps_the_location (q1 q2 q3 q4 : string) (w : World) :
  store_path (world_after (submit_questions q1 q2 q3 q4) w) = store_path w.
Proof.
  unfold world_after. rewrite run_submit_questions.
  destruct (io_error w (path_mkdir _)); [done|].
  destruct (io_error w (open_w _)); cbn [fst snd].
  { rewrite (store_path_eq (with_dirs _ w)), path_present_tmp_mkdir.
    symmetry. apply store_path_eq. }
  destruct (io_error w (file_write _ _)); cbn [fst snd]; apply store_path_saved.
Qed.

(** X11.  A submission that fails before the store file is opened (creating
    the directory, opening the file) leaves every file as it was.  One that
    fails at the write, after [open(..., "w")] has truncated the file,
    leaves in the store file the beginning of the new record that reached
    it before the failure, [short_write] bytes of it (none, a hundred, a
    whole block) and nothing else: the record that was there is lost.  A
    read that meets no I/O failure then returns that beginning, or nothing
    when it ends inside a character and cannot be decoded. *)
Theorem failed_write_and_the_old_record (q1 q2 q3 q4 : string) (w : World)
    (i : nat) (op : Op) (e : string) :
  first_failure w (write_ops (store_path w) (responses_content q1 q2 q3 q4)) i op e →
  (i < 2 → files (world_after (submit_questions q1 q2 q3 q4) w) = files w)
  ∧ (i = 2 →
     files (world_after (submit_questions q1 q2 q3 q4) w) !! store_path w
       = Some (Text.take (short_write w) (responses_content q1 q2 q3 q4))
     ∧ (io_error w (Path_exists (store_path w)) = None →
        io_error w (open_r (store_path w)) = None →
        io_error w (file_read (store_path w)) = None →
        read_result (world_after (submit_questions q1 q2 q3 q4) w)
          = Text.decoded (Text.take (short_write w) (responses_content q1 q2 q3 q4)))).
Proof.
  intros (Hop & He & Hbefore).
  unfold world_after. rewrite run_submit_questions.
  set (p := store_path w) in *. set (data := responses_content q1 q2 q3 q4) in *.
  destruct i as [|[|[|i]]]; simpl in Hop; [| | |done]; injection Hop as <-.
  - rewrite He. split; [done | lia].
  - rewrite (Hbefore (path_mkdir (Text.parent p))), He; [|simpl; set_solver].
    split; [done | lia].
  - rewrite (Hbefore (path_mkdir (Text.parent p))), (Hbefore (open_w p)), He;
      [|simpl; set_solver..].
    split; [lia|]. intros _. cbn [fst snd]. split.
    + unfold saved_world. simpl. apply lookup_insert_eq.
    + intros Hc Ho Hr. exact (read_saved _ w Hc Ho Hr).
Qed.

Lemma has_cr_universal_newlines s :
  Text.has_cr (Text.universal_newlines s) = false.
Proof.
  assert (∀ s, Text.has_cr (Text.universal_newlines s) = false
               ∧ ∀ c, Text.has_cr (Text.universal_newlines (String c s)) = false) as H;
    [|apply H].
  clear s. induction s as [|a s [IH1 IH2]].
  - split; [done|]. intros c. cbn [Text.universal_newlines].
    destruct (Ascii.eqb c "013") eqn:Hc; cbn [Text.has_cr]; by rewrite ?Hc.
  - split; [apply IH2|]. intros c. cbn [Text.universal_newlines].
    destruct (Ascii.eqb c "013") eqn:Hc.
    + destruct (Ascii.eqb a "010"); cbn [Text.has_cr]; simpl; [apply IH1 | apply IH2].
    + cbn [Text.has_cr]. rewrite Hc. apply IH2.
Qed.

(** X7.  A text that [read_student_responses] returns contains no carriage
    return, and neither does the Angel's system prompt built from it. *)
Theorem read_text_has_no_carriage_return (w : World) (text : string) :
  read_result w = Some text →
  Text.has_cr text = false
  ∧ Text.has_cr (angel_system_prompt (read_result w)) = false.
Proof.
  intros Hread.
  assert (Text.has_cr text = false) as Hcr.
  { rewrite read_result_eq in Hread.
    destruct (io_error w (Path_exists (store_path w))); [done|].
    destruct (path_present w (store_path w)); [|done].
    destruct (io_error w (open_r (store_path w))); [done|].
    destruct (files w !! store_path w) as [bytes|]; [|done].
    destruct (io_error w (file_read (store_path w))); [done|].
    unfold Text.decoded in Hread. destruct (Text.utf8_valid bytes); [|done].
    injection Hread as <-. apply has_cr_universal_newlines. }
  split; [done|]. rewrite Hread. unfold angel_system_prompt, injection_suffix. simpl.
  destruct (Text.truthy text); [|by vm_compute].
  rewrite !TextFacts.has_cr_app, Hcr. by vm_compute.
Qed.

Lemma Substring_here q rest : Text.Substring q (q +:+ rest).
Proof. by exists "", rest. Qed.

Lemma Substring_skip a s q : Text.Substring q s → Text.Substring q (a +:+ s).
Proof.
  intros (pre & post & ->). exists (a +:+ pre), post. by rewrite TextFacts.app_assoc.
Qed.

Lemma Substring_inside q s t :
  Text.Substring s t → Text.Substring q s → Text.Substring q t.
Proof.
  intros (pre & post & ->) (pre' & post' & ->).
  exists (pre +:+ pre'), (post' +:+ post). by rewrite !TextFacts.app_assoc.
Qed.

(** X12.  After a submission that was saved, of answers that are texts, if
    the store can be read, the Angel's system prompt is its template
    followed by the injection suffix around the stored text as read back;
    when no answer contains a carriage return the prompt contains the
    whole stored text, and each of the four answers, verbatim. *)
Theorem angel_sees_the_submission (q1 q2 q3 q4 : string) (c : OpenAI) (req : ChatRequest)
    (w : World) :
  Text.utf8_valid q1 = true → Text.utf8_valid q2 = true →
  Text.utf8_valid q3 = true → Text.utf8_valid q4 = true →
  outcome (submit_questions q1 q2 q3 q4) w = returns HTMLResponse_saved →
  io_error w (Path_exists (store_path w)) = None →
  io_error w (open_r (store_path w)) = None →
  io_error w (file_read (store_path w)) = None →
  ∃ prompt,
    sent_messages
      (trace (chat_angel (Some c) req) (world_after (submit_questions q1 q2 q3 q4) w))
      = [persona_messages prompt Angel req]
    ∧ prompt = angel_system
                 +:+ injection_suffix
                       (Text.universal_newlines (responses_content q1 q2 q3 q4))
    ∧ (Text.has_cr q1 = false → Text.has_cr q2 = false →
       Text.has_cr q3 = false → Text.has_cr q4 = false →
       Text.Substring (responses_content q1 q2 q3 q4) prompt
       ∧ Forall (λ q, Text.Substring q prompt) [q1; q2; q3; q4]).
Proof.
  intros Hv1 Hv2 Hv3 Hv4 Hsaved Hc Ho Hr.
  pose proof (responses_content_valid q1 q2 q3 q4 Hv1 Hv2 Hv3 Hv4) as Hvalid.
  destruct (submit_cases q1 q2 q3 q4 w) as [(i & op & e & _ & Hout) | [_ Hrun]];
    [by rewrite Hout in Hsaved|].
  assert (world_after (submit_questions q1 q2 q3 q4) w
          = saved_world (store_path w) (responses_content q1 q2 q3 q4) w) as ->.
  { unfold world_after. by rewrite Hrun. }
  set (data := responses_content q1 q2 q3 q4) in *.
  set (w' := saved_world (store_path w) data w).
  destruct (run_chat Angel c req w') as (tr & Hchat & Hsent & _).
  { intros _. unfold w'. by rewrite store_path_saved. }
  unfold chat in Hchat. cbn beta iota zeta in Hchat.
  assert (read_result w' = Some (Text.universal_newlines data)) as Hread.
  { unfold w'. rewrite (read_saved data w Hc Ho Hr). by apply TextFacts.decoded_valid. }
  assert (Text.truthy (Text.universal_newlines data) = true) as Htruthy by done.
  exists (angel_system +:+ injection_suffix (Text.universal_newlines data)).
  split_and!; [|done|].
  - unfold trace. rewrite Hchat. cbn [snd]. rewrite sent_messages_app, Hsent, Hread.
    unfold angel_system_prompt, if_student_responses. by rewrite Htruthy.
  - intros H1 H2 H3 H4.
    rewrite TextFacts.universal_newlines_id by by apply responses_content_no_cr.
    assert (Text.Substring data (angel_system +:+ injection_suffix data)) as Hdata.
    { exists (angel_system +:+ injection_head), injection_tail.
      unfold injection_suffix. by rewrite !TextFacts.app_assoc. }
    split; [done|].
    unfold data, responses_content in *.
    repeat constructor; apply (Substring_inside _ _ _ Hdata);
      repeat first [apply Substring_here | apply Substring_skip].
Qed.
(** X13.  At import the key is taken from the process environment when
    [OPENAI_API_KEY] is set there, whatever the [.env] file says, and from
    the [.env] file otherwise.  A key that is not empty gives a client with
    that key; there is no client exactly when there is no key or the key is
    empty. *)
Theorem client_from_environment (dotenv environ : gmap string string) :
  let key := match environ !! "OPENAI_API_KEY" with
             | Some k => Some k
             | None => dotenv !! "OPENAI_API_KEY"
             end in
  api_key (import_module dotenv environ) = key
  ∧ (∀ k, key = Some k → k ≠ "" →
       client (import_module dotenv environ) = Some {| client_api_key := k |})
  ∧ (client (import_module dotenv environ) = None ↔ key = None ∨ key = Some "").
Proof.
  intros key.
  assert (api_key (import_module dotenv environ) = key) as Hkey.
  { unfold import_module, load_dotenv, os_getenv, key. simpl.
    rewrite lookup_union. by destruct (environ !! _), (dotenv !! _). }
  assert (client (import_module dotenv environ)
          = match key with
            | Some k => if Text.truthy k then Some {| client_api_key := k |} else None
            | None => None
            end) as ->.
  { rewrite <- Hkey. reflexivity. }
  split_and!; [done| |].
  - intros k -> Hk. by destruct k.
  - destruct key as [[|a k]|]; simpl; split; try done; auto.
    + by intros [?|?].
Qed.


Section TwoWriters.

Variables (a1 a2 a3 a4 b1 b2 b3 b4 : string) (w0 : World).
Hypothesis no_failure : ∀ op, io_error w0 op = None.

Abbreviation p := (store_path w0).
Abbreviation da := (responses_content a1 a2 a3 a4).
Abbreviation db := (responses_content b1 b2 b3 b4).
Abbreviation Inv := (between_writes w0 da db).

Lemma first_writer_keeps_Inv i j wc :
  Inv i j wc → Inv (S i) j (writer_effect i p da wc).
Proof.
  intros (Hio & Htmp & Hc).
  destruct (writer_effect_outside w0 i da wc Hio Htmp) as [Hio' Htmp'].
  split_and!; [done..|].
  destruct i as [|[|[|[|i]]]]; simpl in *; try done.
  - rewrite lookup_insert_eq. destruct (stage j); auto.
  - rewrite lookup_insert_eq. unfold file_text.
    destruct (stage j); [..|destruct Hc as [Hc|Hc]]; rewrite Hc; simpl;
      rewrite ?TextFacts.written_over_empty; auto.
Qed.

Lemma second_writer_keeps_Inv i j wc :
  Inv i j wc → Inv i (S j) (writer_effect j p db wc).
Proof.
  intros (Hio & Htmp & Hc).
  destruct (writer_effect_outside w0 j db wc Hio Htmp) as [Hio' Htmp'].
  split_and!; [done..|].
  destruct (stage i); destruct j as [|[|[|[|j]]]]; simpl in *; try done;
    rewrite lookup_insert_eq; unfold file_text; auto;
    try destruct Hc as [Hc|Hc]; rewrite Hc; simpl;
    rewrite ?TextFacts.written_over_empty; auto.
Qed.

Lemma two_writers_Inv sched :
  ∀ i j tA tB wc,
    tA = (steps i (submit_questions a1 a2 a3 a4) w0).1 →
    tB = (steps j (submit_questions b1 b2 b3 b4) w0).1 →
    Inv i j wc →
    ∀ tA' tB' w', interleave sched tA tB wc = (tA', tB', w') →
    ∃ i' j',
      tA' = (steps i' (submit_questions a1 a2 a3 a4) w0).1
      ∧ tB' = (steps j' (submit_questions b1 b2 b3 b4) w0).1
      ∧ Inv i' j' w'.
Proof.
  induction sched as [|[] sched IH]; intros i j tA tB wc -> -> HInv tA' tB' w'.
  - simpl. intros [= <- <- <-]. by exists i, j.
  - cbn [interleave].
    rewrite (writer_step a1 a2 a3 a4 w0 no_failure i wc); [|apply HInv..].
    apply (IH (S i) j); [done..|].
    by apply first_writer_keeps_Inv.
  - cbn [interleave].
    rewrite (writer_step b1 b2 b3 b4 w0 no_failure j wc); [|apply HInv..].
    apply (IH i (S j)); [done..|].
    by apply second_writer_keeps_Inv.
Qed.

End TwoWriters.

(** X15.  Two submissions in flight at once, with no I/O failure and each
    primitive taken as one atomic step: under every schedule, once both have
    finished the store file holds the text of one of them, or the text of
    one followed by what is left of the other beyond its length. *)
Theorem overlapping_submissions (sched : list bool) (a1 a2 a3 a4 b1 b2 b3 b4 : string)
    (w w' : World) (ra rb : Response) :
  (∀ op, io_error w op = None) →
  interleave sched (submit_questions a1 a2 a3 a4) (submit_questions b1 b2 b3 b4) w
    = (Ret ra, Ret rb, w') →
  let a := responses_content a1 a2 a3 a4 in
  let b := responses_content b1 b2 b3 b4 in
  files w' !! store_path w = Some a
  ∨ files w' !! store_path w = Some b
  ∨ files w' !! store_path w = Some (a +:+ Text.drop (String.length a) b)
  ∨ files w' !! store_path w = Some (b +:+ Text.drop (String.length b) a).
Proof.
  intros Hno Hrun a b.
  destruct (two_writers_Inv a1 a2 a3 a4 b1 b2 b3 b4 w Hno sched 0 0 _ _ w
              eq_refl eq_refl (conj eq_refl (conj eq_refl eq_refl)) _ _ _ Hrun)
    as (i & j & HA & HB & _ & _ & Hc).
  symmetry in HA, HB.
  apply (writer_finished _ _ _ _ w Hno) in HA, HB.
  rewrite HA, HB in Hc. exact Hc.
Qed.

(** ** The further properties at concrete inputs *)

Lemma provider_error_surfaced_witness :
  outcome (chat Nicholas (Some test_client) hi) offline_world
    = raises {| status_code := 500;
                detail := "Error calling OpenAI API: Connection error." |}
  ∧ sent_messages (trace (chat Nicholas (Some test_client) hi) offline_world)
    = [messages_for Nicholas hi offline_world]
  ∧ world_after (chat Nicholas (Some test_client) hi) offline_world = offline_world.
Proof.
  apply (provider_error_surfaced Nicholas test_client hi offline_world
           {| str := "Connection error." |}); [discriminate | reflexivity].
Defined.

Lemma no_choice_is_an_error_witness :
  outcome (chat Devil (Some test_client) hi) no_choice_world
    = raises {| status_code := 500;
                detail := "Error calling OpenAI API: list index out of range" |}
  ∧ sent_messages (trace (chat Devil (Some test_client) hi) no_choice_world)
    = [messages_for Devil hi no_choice_world].
Proof.
  apply (no_choice_is_an_error Devil test_client hi no_choice_world);
    [discriminate | reflexivity].
Defined.

Lemma first_choice_is_the_reply_witness :
  outcome (chat Angel (Some test_client) hi) fresh_world = returns (reply_json (Some "ok"))
  ∧ sent_messages (trace (chat Angel (Some test_client) hi) fresh_world)
    = [messages_for Angel hi fresh_world]
  ∧ world_after (chat Angel (Some test_client) hi) fresh_world = fresh_world.
Proof.
  apply (first_choice_is_the_reply Angel test_client hi fresh_world (Some "ok") []);
    reflexivity.
Defined.

Lemma read_raises_only_at_the_check_witness :
  outcome read_student_responses unsearchable_world
    = raises {| str := "[Errno 13] Permission denied: '/tmp/student_responses.txt'" |}
  ∧ ∃ r, outcome read_student_responses unreadable_world = returns r.
Proof.
  split.
  - apply (proj1 (read_raises_only_at_the_check unsearchable_world)). reflexivity.
  - apply (proj1 (proj2 (read_raises_only_at_the_check unreadable_world))). reflexivity.
Defined.

Lemma every_error_is_a_500_witness :
  status_code (storage_failure "[Errno 28] No space left on device") = 500.
Proof.
  apply (every_error_is_a_500 Nicholas None hi "a" "b" "c" "1" disk_full_world).
  right. vm_compute. reflexivity.
Defined.

Lemma read_text_has_no_carriage_return_witness :
  Text.has_cr (labeled_layout ["old one"; "old two"; "old three"; "1"]) = false
  ∧ Text.has_cr (angel_system_prompt (read_result old_world)) = false.
Proof.
  apply (read_text_has_no_carriage_return old_world). vm_compute. reflexivity.
Defined.

Lemma no_history_witness :
  outcome (submit_questions "Did it late" "asked a friend" "raised hand twice" "3")
    (world_after (submit_questions "old one" "old two" "old three" "1") fresh_world)
    = returns HTMLResponse_saved
  ∧ world_after (submit_questions "Did it late" "asked a friend" "raised hand twice" "3")
      (world_after (submit_questions "old one" "old two" "old three" "1") fresh_world)
    = world_after (submit_questions "Did it late" "asked a friend" "raised hand twice" "3")
        fresh_world
  ∧ files (world_after
             (submit_questions "Did it late" "asked a friend" "raised hand twice" "3")
             fresh_world) !! store_path fresh_world
    = Some (responses_content "Did it late" "asked a friend" "raised hand twice" "3").
Proof.
  apply (no_history "old one" "old two" "old three" "1"
           "Did it late" "asked a friend" "raised hand twice" "3" fresh_world);
    vm_compute; reflexivity.
Defined.

Lemma failed_write_and_the_old_record_witness :
  files old_world !! "/tmp/student_responses.txt"
    = Some (responses_content "old one" "old two" "old three" "1")
  ∧ files (world_after (submit_questions "a" "b" "c" "1") disk_filling_world)
      !! "/tmp/student_responses.txt" = Some "Q1 — How did you handle your first assignment"
  ∧ read_result (world_after (submit_questions "a" "b" "c" "1") disk_filling_world)
    = Some "Q1 — How did you handle your first assignment".
Proof.
  split; [reflexivity|].
  destruct (failed_write_and_the_old_record "a" "b" "c" "1" disk_filling_world 2
              (file_write "/tmp/student_responses.txt" (responses_content "a" "b" "c" "1"))
              "[Errno 28] No space left on device") as [_ Hlost].
  - split_and!; [reflexivity | reflexivity |].
    intros op' Hop'. apply elem_of_cons in Hop' as [->|Hop']; [reflexivity|].
    apply list_elem_of_singleton in Hop' as ->. reflexivity.
  - destruct (Hlost eq_refl) as [Hfile Hread]. split; [exact Hfile|].
    apply Hread; reflexivity.
Defined.

Lemma angel_sees_the_submission_witness :
  ∃ prompt,
    sent_messages
      (trace (chat_angel (Some test_client) hi)
         (world_after
            (submit_questions "Did it late" "asked a friend" "raised hand twice" "3")
            fresh_world))
      = [persona_messages prompt Angel hi]
    ∧ Text.Substring "raised hand twice" prompt.
Proof.
  destruct (angel_sees_the_submission
              "Did it late" "asked a friend" "raised hand twice" "3" test_client hi
              fresh_world) as (prompt & Hsent & _ & Hsub);
    [reflexivity | reflexivity | reflexivity | reflexivity
    | vm_compute; reflexivity | reflexivity | reflexivity | reflexivity |].
  exists prompt. split; [exact Hsent|].
  destruct (Hsub eq_refl eq_refl eq_refl eq_refl) as [_ Hall].
  by apply Forall_cons in Hall as (_ & (_ & (H3 & _)%Forall_cons)%Forall_cons).
Defined.


Lemma overlapping_submissions_witness :
  let a := responses_content "old one" "old two" "old three" "1" in
  let b := responses_content "a" "b" "c" "2" in
  let w' := (interleave open_open_write_write
               (submit_questions "old one" "old two" "old three" "1")
               (submit_questions "a" "b" "c" "2") fresh_world).2 in
  files w' !! store_path fresh_world = Some a
  ∨ files w' !! store_path fresh_world = Some b
  ∨ files w' !! store_path fresh_world = Some (a +:+ Text.drop (String.length a) b)
  ∨ files w' !! store_path fresh_world = Some (b +:+ Text.drop (String.length b) a).
Proof.
  eapply (overlapping_submissions open_open_write_write
            "old one" "old two" "old three" "1" "a" "b" "c" "2" fresh_world).
  - intros op. reflexivity.
  - vm_compute. reflexivity.
Defined.
